(** * Anonymous chat bot: matchmaking queue, pairings, quota and moderation

    A shallow embedding of [database.py] (the SQLite tables and the
    functions over them) and of [bot.py] (the command handlers), followed
    by the properties of the matchmaking-and-session state machine.

    Conventions of the embedding.
    - Python [int] and SQLite [INTEGER] are [Z]; Python truthiness of an
      [int] is [≠ 0], of an [Optional[int]] is "present and [≠ 0]".
      Where a handler binds an integer that a user typed, the refusal of
      integers outside 64 bits by [sqlite3] is part of the model.
    - A reading of [time.time()] is the rational number that the [float]
      denotes: the rate limiter subtracts two readings of the running
      clock, or [0] from a reading, and for these the [float] subtraction
      is exact.  [int(time.time())] is a separate reading, in [Z].
    - Every SQLite table is the list (or finite map, where the primary key
      is the only access path) of its rows.  A table stored as a list keeps
      its rows in the order in which they were inserted.
    - Every handler runs atomically (one command at a time), returns the
      new state and the ordered log of the calls it made on the [database]
      module and on the transport ([message.answer], [bot.send_message],
      [bot.copy_message], [bot.get_chat_member]).
    - The transport accepts every call; the only transport outcomes the
      handlers branch on ([is_subscribed], the delivery in [handle_text])
      are inputs of the handler. *)

From Stdlib Require Import QArith.
From stdpp Require Import gmap strings list fin_maps pretty.

Open Scope Z_scope.

Set Warnings "-clear-no-such-hyp".

(** ** Python helpers *)

(** [if x:] for an [int]. *)
Definition truthy (x : Z) : bool := bool_decide (x ≠ 0).

(** [if x:] for an [Optional[int]] ([None] and [0] are both falsy): the
    value, when it is truthy. *)
Definition as_truthy (x : option Z) : option Z :=
  match x with
  | Some v => if truthy v then Some v else None
  | None => None
  end.

(** [lst[start:]] for a Python list and a possibly negative [start]. *)
Definition slice_from {A} (start : Z) (lst : list A) : list A :=
  if bool_decide (start < 0)
  then drop (Z.to_nat (Z.max 0 (Z.of_nat (length lst) + start))) lst
  else drop (Z.to_nat start) lst.

(** [x < y] on readings of [time.time()], decided on the fractions. *)
Global Instance Qlt_decision (x y : Q) : Decision (x < y)%Q :=
  decide (Qnum x * QDen y < Qnum y * QDen x).

(** ** database.py *)

Module database.

(** Row of [users] without its key [user_id]. *)
Record UserRow := {
  username : option string;
  first_name : option string;
  last_name : option string
}.

(** Row of [reports]. *)
Record Report := {
  reporter_id : Z;
  reported_id : Z;
  reason : string;
  timestamp : Z
}.

(** Row of [limits] without its key [user_id]; also the dictionary that
    [get_limit_info] returns. *)
Record LimitRow := {
  used_count : Z;
  reset_time : Z;
  premium : Z
}.

(** The six tables of [init_db].

    [queue] has the single column [user_id INTEGER PRIMARY KEY].  In SQLite
    a column declared exactly so is an alias of the table's ROWID: the ROWID
    of a queue row is the user id itself, not an insertion counter.  The
    list holds the rows in arrival order; a query that says
    [ORDER BY ROWID ASC] orders them by user id.

    [chats] has the composite key [(user1_id, user2_id)]; its rows are kept
    in insertion order. *)
Record Database := {
  users : gmap Z UserRow;
  queue : list Z;
  chats : list (Z * Z);
  reports : list Report;
  blocks : gset Z;
  limits : gmap Z LimitRow
}.

Definition init_db : Database :=
  {| users := ∅; queue := []; chats := []; reports := [];
     blocks := ∅; limits := ∅ |}.

Definition with_users (db : Database) (t : gmap Z UserRow) : Database :=
  {| users := t; queue := queue db; chats := chats db;
     reports := reports db; blocks := blocks db; limits := limits db |}.

Definition with_queue (db : Database) (t : list Z) : Database :=
  {| users := users db; queue := t; chats := chats db;
     reports := reports db; blocks := blocks db; limits := limits db |}.

Definition with_chats (db : Database) (t : list (Z * Z)) : Database :=
  {| users := users db; queue := queue db; chats := t;
     reports := reports db; blocks := blocks db; limits := limits db |}.

Definition with_reports (db : Database) (t : list Report) : Database :=
  {| users := users db; queue := queue db; chats := chats db;
     reports := t; blocks := blocks db; limits := limits db |}.

Definition with_blocks (db : Database) (t : gset Z) : Database :=
  {| users := users db; queue := queue db; chats := chats db;
     reports := reports db; blocks := t; limits := limits db |}.

Definition with_limits (db : Database) (t : gmap Z LimitRow) : Database :=
  {| users := users db; queue := queue db; chats := chats db;
     reports := reports db; blocks := blocks db; limits := t |}.

(** [ORDER BY ROWID ASC LIMIT 1] over rows whose ROWID is the row's only
    column: the row with the least ROWID, if there is a row. *)
Fixpoint order_by_rowid_limit_1 (rows : list Z) : option Z :=
  match rows with
  | [] => None
  | r :: rest =>
      match order_by_rowid_limit_1 rest with
      | None => Some r
      | Some m => Some (Z.min r m)
      end
  end.

(** [INSERT OR REPLACE INTO users ...] *)
Definition add_user (user_id : Z) (username first_name last_name : option string)
    (db : Database) : Database :=
  with_users db
    (<[user_id := {| username := username; first_name := first_name;
                     last_name := last_name |}]> (users db)).

(** [INSERT OR IGNORE INTO queue (user_id) VALUES (?)] *)
Definition add_to_queue (user_id : Z) (db : Database) : Database :=
  if decide (user_id ∈ queue db) then db
  else with_queue db (queue db ++ [user_id]).

(** [DELETE FROM queue WHERE user_id = ?] *)
Definition remove_from_queue (user_id : Z) (db : Database) : Database :=
  with_queue db (filter (λ r, r ≠ user_id) (queue db)).

(** [get_first_in_queue(exclude_user_id=None)]: the [WHERE user_id != ?]
    clause is used only when [exclude_user_id] is truthy. *)
Definition get_first_in_queue (exclude_user_id : option Z) (db : Database)
    : option Z :=
  match as_truthy exclude_user_id with
  | Some excluded =>
      order_by_rowid_limit_1 (filter (λ r, r ≠ excluded) (queue db))
  | None => order_by_rowid_limit_1 (queue db)
  end.

(** [INSERT INTO chats ...]: a second row with the same
    [(user1_id, user2_id)] violates the primary key and raises
    [sqlite3.IntegrityError] ([None]). *)
Definition add_chat (user1_id user2_id : Z) (db : Database) : option Database :=
  if decide ((user1_id, user2_id) ∈ chats db) then None
  else Some (with_chats db (chats db ++ [(user1_id, user2_id)])).

(** [get_partner]: the first row found with [user1_id = ?], else the first
    row found with [user2_id = ?].  Neither query has an [ORDER BY]; the
    model takes the rows in stored order (the properties below only use
    [get_partner] where at most one row matches). *)
Definition get_partner (user_id : Z) (db : Database) : option Z :=
  match head (filter (λ r, r.1 = user_id) (chats db)) with
  | Some row => Some row.2
  | None =>
      match head (filter (λ r, r.2 = user_id) (chats db)) with
      | Some row => Some row.1
      | None => None
      end
  end.

(** [DELETE FROM chats WHERE (user1_id = ? AND user2_id = ?)
                          OR (user1_id = ? AND user2_id = ?)] *)
Definition remove_chat_by_users (user1_id user2_id : Z) (db : Database)
    : Database :=
  with_chats db
    (filter (λ r, ¬ ((r.1 = user1_id ∧ r.2 = user2_id)
                     ∨ (r.1 = user2_id ∧ r.2 = user1_id))) (chats db)).

(** [add_report]; [now] is the value of [int(time.time())]. *)
Definition add_report (reporter_id reported_id : Z) (reason : string) (now : Z)
    (db : Database) : Database :=
  with_reports db
    (reports db ++ [{| reporter_id := reporter_id; reported_id := reported_id;
                       reason := reason; timestamp := now |}]).

(** The integers [sqlite3] binds to a statement: a Python [int] outside
    the signed 64-bit range makes [execute] raise [OverflowError].  The
    other functions of this module are called with the ids of Telegram
    users and with values computed from them and from the clock, which are
    in range; [block_user] and [unblock_user] are called with whatever
    integer the moderator typed, and are the first call of their command
    that binds it. *)
Definition fits_sqlite_integer (v : Z) : bool :=
  bool_decide (- 2 ^ 63 ≤ v < 2 ^ 63).

(** [INSERT OR IGNORE INTO blocks ...]; [None] is [OverflowError]. *)
Definition block_user (user_id : Z) (db : Database) : option Database :=
  if fits_sqlite_integer user_id
  then Some (with_blocks db ({[user_id]} ∪ blocks db))
  else None.

(** [DELETE FROM blocks WHERE user_id = ?]; [None] is [OverflowError]. *)
Definition unblock_user (user_id : Z) (db : Database) : option Database :=
  if fits_sqlite_integer user_id
  then Some (with_blocks db (blocks db ∖ {[user_id]}))
  else None.

Definition is_blocked (user_id : Z) (db : Database) : bool :=
  bool_decide (user_id ∈ blocks db).

Definition get_limit_info (user_id : Z) (db : Database) : LimitRow :=
  match limits db !! user_id with
  | Some row => row
  | None => {| used_count := 0; reset_time := 0; premium := 0 |}
  end.

(** [INSERT INTO limits ... ON CONFLICT(user_id) DO UPDATE SET ...] *)
Definition update_limit (user_id used_count reset_time premium : Z)
    (db : Database) : Database :=
  with_limits db
    (<[user_id := {| used_count := used_count; reset_time := reset_time;
                     premium := premium |}]> (limits db)).

Record Stats := {
  stats_users : nat;
  stats_reports : nat;
  stats_active_chats : nat;
  stats_queue : nat
}.

Definition get_stats (db : Database) : Stats :=
  {| stats_users := size (users db);
     stats_reports := length (reports db);
     stats_active_chats := length (chats db);
     stats_queue := length (queue db) |}.

End database.

(** ** Telegram objects read by the handlers *)

Module tg.

(** [message.from_user] *)
Record User := {
  id : Z;
  username : option string;
  first_name : option string;
  last_name : option string
}.

(** [message]; [chat_id] is [message.chat.id]. *)
Record Message := {
  from_user : User;
  chat_id : Z;
  message_id : Z;
  text : string
}.

End tg.

(** ** bot.py: state, calls and the handler monad *)

(** The process state: the database and the two module-level dictionaries
    of [bot.py].  [last_action_time] is keyed by the string
    [f"{user_id}:{action}"] and holds readings of [time.time()]. *)
Record Bot := {
  db : database.Database;
  last_messages : gmap Z (list (Z * Z));
  last_action_time : gmap string Q
}.

Definition init_bot : Bot :=
  {| db := database.init_db; last_messages := ∅; last_action_time := ∅ |}.

Definition with_db (st : Bot) (d : database.Database) : Bot :=
  {| db := d; last_messages := last_messages st;
     last_action_time := last_action_time st |}.

Definition with_last_messages (st : Bot) (t : gmap Z (list (Z * Z))) : Bot :=
  {| db := db st; last_messages := t;
     last_action_time := last_action_time st |}.

Definition with_last_action_time (st : Bot) (t : gmap string Q) : Bot :=
  {| db := db st; last_messages := last_messages st;
     last_action_time := t |}.

(** A call on the [database] module, with its arguments. *)
Inductive DbCall :=
| Add_user (user_id : Z) (username first_name last_name : option string)
| Add_to_queue (user_id : Z)
| Remove_from_queue (user_id : Z)
| Get_first_in_queue (exclude_user_id : option Z)
| Add_chat (user1_id user2_id : Z)
| Get_partner (user_id : Z)
| Remove_chat_by_users (user1_id user2_id : Z)
| Add_report (reporter_id reported_id : Z)
| Block_user (user_id : Z)
| Unblock_user (user_id : Z)
| Is_blocked (user_id : Z)
| Get_limit_info (user_id : Z)
| Update_limit (user_id used_count reset_time premium : Z)
| Get_stats.

(** What a handler does to the outside, in order. *)
Inductive Call :=
| Db (c : DbCall)
| Answer (text : string)                          (* message.answer *)
| Send_message (chat_id : Z) (text : string)      (* bot.send_message *)
| Copy_message (chat_id from_chat_id message_id : Z)
| Get_chat_member (chat_id : string) (user_id : Z)
| Raise (exn : string).

(** A handler step: the result ([None] when an exception left the
    handler), the new state and the calls made. *)
Definition Handler (A : Type) : Type := Bot → option A * Bot * list Call.

Definition ret {A} (a : A) : Handler A := λ st, (Some a, st, []).

Definition bind {A B} (m : Handler A) (k : A → Handler B) : Handler B :=
  λ st,
    match m st with
    | (Some a, st1, log1) =>
        match k a st1 with
        | (b, st2, log2) => (b, st2, log1 ++ log2)
        end
    | (None, st1, log1) => (None, st1, log1)
    end.

Notation "'do' x <- m ; k" := (bind m (λ x, k))
  (at level 10, x name, m at level 100, k at level 200,
   format "'[v' 'do'  x  <-  m ; '/' k ']'").
Notation "'run' m ; k" := (bind m (λ _, k))
  (at level 10, m at level 100, k at level 200,
   format "'[v' 'run'  m ; '/' k ']'").

(** A read of the database. *)
Definition db_read {A} (c : DbCall) (f : database.Database → A) : Handler A :=
  λ st, (Some (f (db st)), st, [Db c]).

(** A committed write to the database. *)
Definition db_write (c : DbCall) (f : database.Database → database.Database)
    : Handler unit :=
  λ st, (Some tt, with_db st (f (db st)), [Db c]).

(** A write that may violate a constraint: nothing is stored and the
    exception leaves the handler. *)
Definition db_try_write (c : DbCall) (exn : string)
    (f : database.Database → option database.Database) : Handler unit :=
  λ st,
    match f (db st) with
    | Some d => (Some tt, with_db st d, [Db c])
    | None => (None, st, [Db c; Raise exn])
    end.

Definition transport (c : Call) : Handler unit := λ st, (Some tt, st, [c]).

Definition answer (text : string) : Handler unit := transport (Answer text).

Definition send_message (chat_id : Z) (text : string) : Handler unit :=
  transport (Send_message chat_id text).

Definition copy_message (chat_id from_chat_id message_id : Z) : Handler unit :=
  transport (Copy_message chat_id from_chat_id message_id).

(** [for x in l: body(x)] *)
Fixpoint for_each {A} (l : list A) (body : A → Handler unit) : Handler unit :=
  match l with
  | [] => ret tt
  | x :: rest => run body x; for_each rest body
  end.

Definition NL : string := String (Ascii.ascii_of_nat 10) "".

(** The functions of [database.py] as handler steps. *)
Module dbcall.

Definition add_user (user_id : Z) (username first_name last_name : option string)
    : Handler unit :=
  db_write (Add_user user_id username first_name last_name)
           (database.add_user user_id username first_name last_name).

Definition add_to_queue (user_id : Z) : Handler unit :=
  db_write (Add_to_queue user_id) (database.add_to_queue user_id).

Definition remove_from_queue (user_id : Z) : Handler unit :=
  db_write (Remove_from_queue user_id) (database.remove_from_queue user_id).

Definition get_first_in_queue (exclude_user_id : option Z) : Handler (option Z) :=
  db_read (Get_first_in_queue exclude_user_id)
          (database.get_first_in_queue exclude_user_id).

Definition add_chat (user1_id user2_id : Z) : Handler unit :=
  db_try_write (Add_chat user1_id user2_id) "sqlite3.IntegrityError"
               (database.add_chat user1_id user2_id).

Definition get_partner (user_id : Z) : Handler (option Z) :=
  db_read (Get_partner user_id) (database.get_partner user_id).

Definition remove_chat_by_users (user1_id user2_id : Z) : Handler unit :=
  db_write (Remove_chat_by_users user1_id user2_id)
           (database.remove_chat_by_users user1_id user2_id).

(** [reason] takes its default; [now] is the clock read by [add_report]. *)
Definition add_report (reporter_id reported_id now : Z) : Handler unit :=
  db_write (Add_report reporter_id reported_id)
           (database.add_report reporter_id reported_id "No reason provided" now).

Definition block_user (user_id : Z) : Handler unit :=
  db_try_write (Block_user user_id) "OverflowError"
               (database.block_user user_id).

Definition unblock_user (user_id : Z) : Handler unit :=
  db_try_write (Unblock_user user_id) "OverflowError"
               (database.unblock_user user_id).

Definition is_blocked (user_id : Z) : Handler bool :=
  db_read (Is_blocked user_id) (database.is_blocked user_id).

Definition get_limit_info (user_id : Z) : Handler database.LimitRow :=
  db_read (Get_limit_info user_id) (database.get_limit_info user_id).

Definition update_limit (user_id used_count reset_time premium : Z)
    : Handler unit :=
  db_write (Update_limit user_id used_count reset_time premium)
           (database.update_limit user_id used_count reset_time premium).

Definition get_stats : Handler database.Stats :=
  db_read Get_stats database.get_stats.

End dbcall.

(** ** bot.py: helpers *)

(** [push_last_message(user_id, chat_id, message_id, limit)].  The list
    stored under [user_id] is appended to in place and the (possibly
    sliced) result is stored again; no other reference to a stored list
    outlives a handler, so this is an update of the dictionary entry. *)
Definition push_last_message (user_id chat_id message_id limit : Z)
    : Handler unit :=
  λ st,
    let lst := default [] (last_messages st !! user_id)
               ++ [(chat_id, message_id)] in
    let lst := if bool_decide (Z.of_nat (length lst) > limit)
               then slice_from (- limit) lst else lst in
    (Some tt, with_last_messages st (<[user_id := lst]> (last_messages st)), []).

(** [last_messages.get(user_id, [])] *)
Definition last_messages_get (user_id : Z) : Handler (list (Z * Z)) :=
  λ st, (Some (default [] (last_messages st !! user_id)), st, []).

(** [notify_user]: a send whose failure is only logged. *)
Definition notify_user (user_id : Z) (text : string) : Handler unit :=
  send_message user_id text.

(** [is_rate_limited(user_id, action, cooldown)]; [now] is the reading of
    [time.time()], a number of seconds with its fraction. *)
Definition is_rate_limited (user_id : Z) (action : string) (cooldown : Z)
    (now : Q) : Handler bool :=
  λ st,
    let key := pretty user_id +:+ ":" +:+ action in
    let last_time := default 0%Q (last_action_time st !! key) in
    if bool_decide (now - last_time < inject_Z cooldown)%Q
    then (Some true, st, [])
    else (Some false,
          with_last_action_time st (<[key := now]> (last_action_time st)), []).

Definition CHANNEL : string := "@nedo_dev".
Definition LIMIT : Z := 5.
Definition RESET_SECONDS : Z := 3600.

(** [is_subscribed]: asks the transport for the membership; [member] is
    the outcome ([False] also when the call raised). *)
Definition is_subscribed (user_id : Z) (channel_username : string)
    (member : bool) : Handler bool :=
  run transport (Get_chat_member channel_username user_id);
  ret member.

(** The texts the handlers send. *)
Module msg.

Definition start_blocked : string := "You are blocked and cannot use the bot.".
Definition welcome : string :=
  "👋 Welcome! Use /next to find a chat partner." +:+ NL +:+
  "Type /commands to see all available commands.".
Definition commands : string :=
  "📖 Available commands:" +:+ NL +:+
  "/start - Start the bot" +:+ NL +:+
  "/next - Find a chat partner" +:+ NL +:+
  "/stop - End the chat" +:+ NL +:+
  "/report - Report your partner to admin" +:+ NL +:+
  "/commands - Show this list of commands".
Definition wait : string :=
  "⏳ Please wait a few seconds before using /next again.".
Definition next_blocked : string :=
  "You are blocked and cannot use this feature.".
Definition limit_removed : string :=
  "✅ You are subscribed to our channel! The limit has been completely removed. 🚀".
Definition limit_reached : string :=
  "⛔ You have used " +:+ pretty LIMIT +:+ " searches this hour." +:+ NL +:+ NL +:+
  "👉 Subscribe to our channel to remove the limit: " +:+ CHANNEL.
Definition partner_left : string := "🔴 Your partner has left the chat.".
Definition left_searching : string :=
  "🔴 You left the chat. Searching for a new partner...".
Definition partner_found : string :=
  "🔗 Partner found! Type /commands to see options.".
Definition queued : string :=
  "⏳ You have been added to the queue. Please wait for a partner." +:+ NL +:+ NL +:+
  "Available commands:" +:+ NL +:+
  "/stop - leave the queue" +:+ NL +:+
  "/report - report your partner" +:+ NL +:+
  "/next - find a new partner" +:+ NL +:+
  "/commands - show all commands".
Definition partner_stopped : string := "🔴 Your partner ended the chat (/stop).".
Definition you_stopped : string :=
  "🔴 You ended the chat." +:+ NL +:+ NL +:+
  "Type /commands to see available options.".
Definition not_in_chat_stop : string :=
  "You are not in a chat. If you were in the queue, you have been removed."
  +:+ NL +:+ NL +:+ "Type /commands to see available options.".
Definition nothing_to_report : string :=
  "You are not in a chat, nothing to report.".
Definition report_sent : string := "✅ Report sent to admin. Thank you!".
Definition report_no_messages (reporter partner : Z) : string :=
  "Report from " +:+ pretty reporter +:+ " about " +:+ pretty partner +:+
  ". No messages found.".
Definition report_header (reporter partner : Z) : string :=
  "📣 Report from " +:+ pretty reporter +:+ " about " +:+ pretty partner +:+
  ". Last partner messages (up to 5):".
Definition report_end (reporter partner : Z) : string :=
  "End of report. Reporter: " +:+ pretty reporter +:+ ", Reported: " +:+
  pretty partner.
Definition stats_admin_only : string :=
  "This command is only available to the admin.".
Definition stats (s : database.Stats) : string :=
  "📊 Stats:" +:+ NL +:+
  "- Users in DB: " +:+ pretty (database.stats_users s) +:+ NL +:+
  "- Active chats: " +:+ pretty (database.stats_active_chats s) +:+ NL +:+
  "- Reports: " +:+ pretty (database.stats_reports s) +:+ NL +:+
  "- In queue: " +:+ pretty (database.stats_queue s) +:+ NL.
Definition block_admin_only : string := "Only the admin can block users.".
Definition block_usage : string := "Usage: /block <user_id>".
Definition invalid_user_id : string := "Invalid user_id.".
Definition partner_blocked : string :=
  "🔴 Your partner was blocked by the admin.".
Definition you_are_blocked : string :=
  "You have been blocked. You cannot use the bot.".
Definition user_blocked (user_id : Z) : string :=
  "User " +:+ pretty user_id +:+ " blocked.".
Definition unblock_admin_only : string := "Only the admin can unblock users.".
Definition unblock_usage : string := "Usage: /unblock <user_id>".
Definition you_are_unblocked : string :=
  "You have been unblocked. You can use the bot again.".
Definition user_unblocked (user_id : Z) : string :=
  "User " +:+ pretty user_id +:+ " unblocked.".
Definition no_partner : string :=
  "❗ You do not have an active conversation partner. Use /next.".
Definition not_delivered : string := "Failed to deliver the message.".
Definition text_only : string := "🚫 Only text messages are allowed.".

End msg.

(** The outcome of [message.text.split()] and [int(parts[1])] in the two
    moderator commands: no second word, a second word that is not an
    integer, or the integer. *)
Inductive Target :=
| No_argument
| Not_an_int
| User_id (user_id : Z).

(** ** bot.py: the handlers *)

Section Handlers.

Variable ADMIN_ID : Z.

Definition cmd_start (message : tg.Message) : Handler unit :=
  let user := tg.from_user message in
  run dbcall.add_user (tg.id user) (tg.username user) (tg.first_name user)
                      (tg.last_name user);
  do blocked <- dbcall.is_blocked (tg.id user);
  if blocked then answer msg.start_blocked
  else answer msg.welcome.

Definition show_commands (message : tg.Message) : Handler unit :=
  answer msg.commands.

(** Lines 133-154 of [cmd_next]: leave the current chat, then pair with the
    first queued user or join the queue. *)
Definition find_partner (uid : Z) : Handler unit :=
  do partner <- dbcall.get_partner uid;
  run match as_truthy partner with
      | Some partner =>
          run dbcall.remove_chat_by_users uid partner;
          run notify_user partner msg.partner_left;
          answer msg.left_searching
      | None => ret tt
      end;
  do candidate <- dbcall.get_first_in_queue (Some uid);
  match as_truthy candidate with
  | Some candidate =>
      run dbcall.remove_from_queue candidate;
      run dbcall.add_chat uid candidate;
      run notify_user candidate msg.partner_found;
      answer msg.partner_found
  | None =>
      run dbcall.add_to_queue uid;
      answer msg.queued
  end.

(** Lines 115-126 of [cmd_next]: the value of [premium] with which the
    handler goes on, or [None] when it has returned (limit reached and not
    subscribed). *)
Definition check_limit (uid used reset_time premium : Z) (member : bool)
    : Handler (option Z) :=
  if negb (truthy premium) then
    if bool_decide (used >= LIMIT) then
      do subscribed <- is_subscribed uid CHANNEL member;
      if subscribed then
        run answer msg.limit_removed;
        ret (Some 1)
      else
        run answer msg.limit_reached;
        run dbcall.update_limit uid used reset_time premium;
        ret None
    else ret (Some premium)
  else ret (Some premium).

(** [cmd_next]; [clock] is the reading of [time.time()] inside
    [is_rate_limited], [now] the value of [int(time.time())] at line 111,
    [member] the outcome of the subscription check. *)
Definition cmd_next (message : tg.Message) (clock : Q) (now : Z)
    (member : bool) : Handler unit :=
  let user := tg.from_user message in
  let uid := tg.id user in
  do limited <- is_rate_limited uid "next" 5 clock;
  if limited then answer msg.wait
  else
    run dbcall.add_user uid (tg.username user) (tg.first_name user)
                        (tg.last_name user);
    do blocked <- dbcall.is_blocked uid;
    if blocked then answer msg.next_blocked
    else
      do info <- dbcall.get_limit_info uid;
      let used := database.used_count info in
      let reset_time := database.reset_time info in
      let premium := database.premium info in
      let '(used, reset_time) :=
        if bool_decide (now > reset_time) then (0, now + RESET_SECONDS)
        else (used, reset_time) in
      do go_on <- check_limit uid used reset_time premium member;
      match go_on with
      | None => ret tt
      | Some premium =>
          let used := if negb (truthy premium) then used + 1 else used in
          run dbcall.update_limit uid used reset_time premium;
          find_partner uid
      end.

Definition cmd_stop (message : tg.Message) : Handler unit :=
  let uid := tg.id (tg.from_user message) in
  do partner <- dbcall.get_partner uid;
  match as_truthy partner with
  | Some partner =>
      run dbcall.remove_chat_by_users uid partner;
      run notify_user partner msg.partner_stopped;
      answer msg.you_stopped
  | None =>
      run dbcall.remove_from_queue uid;
      answer msg.not_in_chat_stop
  end.

(** [cmd_report]; [now] is the clock read by [add_report]. *)
Definition cmd_report (message : tg.Message) (now : Z) : Handler unit :=
  let reporter := tg.id (tg.from_user message) in
  do partner <- dbcall.get_partner reporter;
  match as_truthy partner with
  | None => answer msg.nothing_to_report
  | Some partner =>
      run dbcall.add_report reporter partner now;
      run answer msg.report_sent;
      do msgs <- last_messages_get partner;
      match msgs with
      | [] => send_message ADMIN_ID (msg.report_no_messages reporter partner)
      | _ =>
          run send_message ADMIN_ID (msg.report_header reporter partner);
          run for_each msgs (λ m, copy_message ADMIN_ID m.1 m.2);
          send_message ADMIN_ID (msg.report_end reporter partner)
      end
  end.

Definition cmd_stats (message : tg.Message) : Handler unit :=
  if bool_decide (tg.id (tg.from_user message) ≠ ADMIN_ID)
  then answer msg.stats_admin_only
  else
    do stats <- dbcall.get_stats;
    answer (msg.stats stats).

Definition cmd_block (message : tg.Message) (target : Target) : Handler unit :=
  if bool_decide (tg.id (tg.from_user message) ≠ ADMIN_ID)
  then answer msg.block_admin_only
  else
    match target with
    | No_argument => answer msg.block_usage
    | Not_an_int => answer msg.invalid_user_id
    | User_id user_id =>
        run dbcall.block_user user_id;
        do partner <- dbcall.get_partner user_id;
        run match as_truthy partner with
            | Some partner =>
                run dbcall.remove_chat_by_users user_id partner;
                notify_user partner msg.partner_blocked
            | None => ret tt
            end;
        run dbcall.remove_from_queue user_id;
        run notify_user user_id msg.you_are_blocked;
        answer (msg.user_blocked user_id)
    end.

Definition cmd_unblock (message : tg.Message) (target : Target) : Handler unit :=
  if bool_decide (tg.id (tg.from_user message) ≠ ADMIN_ID)
  then answer msg.unblock_admin_only
  else
    match target with
    | No_argument => answer msg.unblock_usage
    | Not_an_int => answer msg.invalid_user_id
    | User_id user_id =>
        run dbcall.unblock_user user_id;
        run notify_user user_id msg.you_are_unblocked;
        answer (msg.user_unblocked user_id)
    end.

(** [handle_text]; [delivered] tells whether the send to the partner went
    through. *)
Definition handle_text (message : tg.Message) (delivered : bool) : Handler unit :=
  let uid := tg.id (tg.from_user message) in
  do blocked <- dbcall.is_blocked uid;
  if blocked then ret tt
  else
    do partner_id <- dbcall.get_partner uid;
    match as_truthy partner_id with
    | None => answer msg.no_partner
    | Some partner_id =>
        run push_last_message uid (tg.chat_id message) (tg.message_id message) 5;
        run send_message partner_id (tg.text message);
        if delivered then ret tt else answer msg.not_delivered
    end.

Definition block_media (message : tg.Message) : Handler unit :=
  answer msg.text_only.

(** ** The bot as a state machine *)

(** An incoming update as the dispatcher routes it, with what the handler
    reads from the clock and the transport. *)
Inductive Update :=
| Start (message : tg.Message)
| Commands (message : tg.Message)
| Next (message : tg.Message) (clock : Q) (now : Z) (member : bool)
| Stop (message : tg.Message)
| Report (message : tg.Message) (now : Z)
| Stats (message : tg.Message)
| Block (message : tg.Message) (target : Target)
| Unblock (message : tg.Message) (target : Target)
| Text (message : tg.Message) (delivered : bool)
| Media (message : tg.Message).

Definition handle (u : Update) : Handler unit :=
  match u with
  | Start message => cmd_start message
  | Commands message => show_commands message
  | Next message clock now member => cmd_next message clock now member
  | Stop message => cmd_stop message
  | Report message now => cmd_report message now
  | Stats message => cmd_stats message
  | Block message target => cmd_block message target
  | Unblock message target => cmd_unblock message target
  | Text message delivered => handle_text message delivered
  | Media message => block_media message
  end.

Definition message_of (u : Update) : tg.Message :=
  match u with
  | Start m | Commands m | Next m _ _ _ | Stop m | Report m _ | Stats m
  | Block m _ | Unblock m _ | Text m _ | Media m => m
  end.

Definition sender (u : Update) : Z := tg.id (tg.from_user (message_of u)).

(** The state and the calls after a handler has run. *)
Definition state_after {A} (h : Handler A) (st : Bot) : Bot := (h st).1.2.
Definition calls_of {A} (h : Handler A) (st : Bot) : list Call := (h st).2.

Definition step (u : Update) (st : Bot) : Bot := state_after (handle u) st.

Definition run_updates (us : list Update) (st : Bot) : Bot :=
  foldl (λ s u, step u s) st us.

(** The states the bot can be in: it starts on empty tables and handles
    updates one at a time.  Telegram user ids are positive, so the sender of
    an update is never [0]. *)
Inductive reachable : Bot → Prop :=
| reachable_init : reachable init_bot
| reachable_step st u :
    reachable st → sender u ≠ 0 → reachable (step u st).

End Handlers.

(** * Vocabulary of the properties *)

(** The queue after the users of [arrivals] have been enqueued in that
    order, starting from an empty queue. *)
Definition enqueue_all (arrivals : list Z) : database.Database :=
  foldl (λ d u, database.add_to_queue u d) database.init_db arrivals.

(** The id the moderator typed after [/block] or [/unblock]. *)
Definition typed_id (u : Update) : option Z :=
  match u with
  | Block _ (User_id user_id) | Unblock _ (User_id user_id) => Some user_id
  | _ => None
  end.

(** The integers that an update brings from Telegram and from the clock
    and that its handler binds to SQL statements: the sender's id, the
    clock reading in seconds and the end of the hour that starts there.
    They fit in 64 bits; the id the moderator types need not. *)
Definition environment_ints (u : Update) : list Z :=
  sender u ::
  match u with
  | Next _ _ now _ => [now; now + RESET_SECONDS]
  | Report _ now => [now]
  | _ => []
  end.

(** The users that appear in the rows of [chats]. *)
Definition participants (rows : list (Z * Z)) : list Z :=
  rows ≫= λ r, [r.1; r.2].

(** The rows of [chats] in which user [u] appears. *)
Definition pairings_of (u : Z) (rows : list (Z * Z)) : list (Z * Z) :=
  filter (λ r, r.1 = u ∨ r.2 = u) rows.

(** Queue and pairings: no user appears twice in [chats], a paired user is
    not queued, at most one user waits, and user id 0 is nowhere. *)
Record matching_inv (d : database.Database) : Prop := {
  inv_one_pairing : NoDup (participants (database.chats d));
  inv_paired_not_queued :
    (∀ u, u ∈ participants (database.chats d) → u ∉ database.queue d);
  inv_queue_short : (length (database.queue d) ≤ 1)%nat;
  inv_pairs_nonzero : 0 ∉ participants (database.chats d);
  inv_queue_nonzero : 0 ∉ database.queue d
}.

(** A blocked user is neither paired nor queued. *)
Definition blocked_idle (d : database.Database) : Prop :=
  ∀ u, u ∈ database.blocks d →
       (u ∉ participants (database.chats d)) ∧ (u ∉ database.queue d).

(** The invariant of the bot's state. *)
Definition bot_inv (st : Bot) : Prop :=
  matching_inv (db st) ∧ blocked_idle (db st).

(** The state of [cmd_next] once the rate limiter has stamped the call and
    the user row has been written. *)
Definition past_gates (message : tg.Message) (clock : Q) (st : Bot) : Bot :=
  let user := tg.from_user message in
  with_db
    (with_last_action_time st
       (<[pretty (tg.id user) +:+ ":" +:+ "next" := clock]>
          (last_action_time st)))
    (database.add_user (tg.id user) (tg.username user) (tg.first_name user)
                       (tg.last_name user) (db st)).

(** The calls of [cmd_next] from line 102 to line 108. *)
Definition gate_calls (message : tg.Message) : list Call :=
  let user := tg.from_user message in
  [Db (Add_user (tg.id user) (tg.username user) (tg.first_name user)
                (tg.last_name user));
   Db (Is_blocked (tg.id user));
   Db (Get_limit_info (tg.id user))].

(** The quota tracker in the words of the specification (section 4.2),
    to be compared with what [cmd_next] does:
    the record is reset when [now] is past the reset time; a premium user
    is allowed without counting; a user at the limit is allowed, and made
    premium, only by the subscription check; any other user is allowed and
    counted.  The result is the verdict and the record to store. *)
Definition spec_evaluate (info : database.LimitRow) (now : Z) (member : bool)
    : bool * database.LimitRow :=
  let past := bool_decide (now > database.reset_time info) in
  let used := if past then 0 else database.used_count info in
  let reset := if past then now + 3600 else database.reset_time info in
  let row used premium :=
    {| database.used_count := used; database.reset_time := reset;
       database.premium := premium |} in
  if bool_decide (database.premium info ≠ 0)
  then (true, row used (database.premium info))
  else if bool_decide (used >= 5)
       then if member then (true, row used 1)
            else (false, row used (database.premium info))
       else (true, row (used + 1) (database.premium info)).

(** The reference that [handle_text] keeps of a message. *)
Definition ref_of (message : tg.Message) : Z * Z :=
  (tg.chat_id message, tg.message_id message).

(** The last [n] elements of a list. *)
Definition last_n {A} (n : nat) (l : list A) : list A :=
  drop (length l - n) l.

(** The block guard as C6 states it, for one update of a blocked user:
    the block set is the first thing consulted, the user is told that they
    are blocked, and the state is left as it was. *)
Definition guarded_as_stated (ADMIN_ID : Z) (u : Update) (st : Bot) : Prop :=
  (∃ rest, calls_of (handle ADMIN_ID u) st = Db (Is_blocked (sender u)) :: rest)
  ∧ (Answer msg.start_blocked ∈ calls_of (handle ADMIN_ID u) st
     ∨ Answer msg.next_blocked ∈ calls_of (handle ADMIN_ID u) st)
  ∧ step ADMIN_ID u st = st.

(** A stored limit record is in range: its count is between 0 and
    [LIMIT], and its premium flag is 0 or 1. *)
Definition in_range (row : database.LimitRow) : Prop :=
  0 ≤ database.used_count row ∧ database.used_count row ≤ LIMIT
  ∧ (database.premium row = 0 ∨ database.premium row = 1).

(** * Example inputs *)

(** A text message numbered [message_id] from the user [uid], in the
    private chat of that user. *)
Definition message_from (uid message_id : Z) : tg.Message :=
  {| tg.from_user := {| tg.id := uid; tg.username := None;
                        tg.first_name := Some "user"; tg.last_name := None |};
     tg.chat_id := uid; tg.message_id := message_id; tg.text := "hello" |}.

(** The moderator of the example runs. *)
Definition moderator : Z := 777.

(** Users 1 and 2 have asked for a partner one after the other: 2 is
    paired with 1. *)
Definition paired_state : Bot :=
  step moderator (Next (message_from 2 1) 100 100 false)
    (step moderator (Next (message_from 1 1) 100 100 false) init_bot).

(** After them user 3 has asked for a partner and waits. *)
Definition waiting_state : Bot :=
  step moderator (Next (message_from 3 1) 100 100 false) paired_state.

(** The moderator has blocked user 7. *)
Definition blocked_state : Bot :=
  step moderator (Block (message_from moderator 1) (User_id 7)) init_bot.

(** A bot whose [limits] table holds one record, for user 7. *)
Definition limited_state (used_count reset_time premium : Z) : Bot :=
  with_db init_bot
    (database.update_limit 7 used_count reset_time premium database.init_db).

(** A bot in whose queue the users 3, 1 and 2 have been put in this
    order. *)
Definition three_waiting : Bot := with_db init_bot (enqueue_all [3; 1; 2]).

(** Seven texts of user 1, numbered 1 to 7, all delivered. *)
Definition seven_texts : list (tg.Message * bool) :=
  (λ n, (message_from 1 n, true)) <$> [1; 2; 3; 4; 5; 6; 7].

(** * Proof support *)

(** Unfolds the steps of a handler down to the functions of
    [database.py]. *)
Ltac unfold_steps :=
  unfold state_after, calls_of,
    is_subscribed, is_rate_limited, push_last_message, last_messages_get,
    notify_user, answer, send_message, copy_message, transport,
    dbcall.add_user, dbcall.add_to_queue, dbcall.remove_from_queue,
    dbcall.get_first_in_queue, dbcall.add_chat, dbcall.get_partner,
    dbcall.remove_chat_by_users, dbcall.add_report, dbcall.block_user,
    dbcall.unblock_user, dbcall.is_blocked, dbcall.get_limit_info,
    dbcall.update_limit, dbcall.get_stats,
    db_read, db_write, db_try_write, bind, ret in *.

(** The elements of the list [l] that come before its tail [tl]. *)
Ltac list_before l tl :=
  match l with
  | tl => constr:(@nil Call)
  | ?x :: ?l' => let p := list_before l' tl in constr:(x :: p)
  end.

(** Closes a goal [Raise exn ∉ log] for a [log] written out call by
    call. *)
Ltac no_raise :=
  let Hin := fresh "Hin" in
  intros Hin;
  repeat (apply elem_of_cons in Hin as [Hin|Hin]; [discriminate|]);
  by apply not_elem_of_nil in Hin.

Arguments find_partner : simpl never.
Arguments database.fits_sqlite_integer : simpl never.
Arguments for_each : simpl never.

(** * Properties *)

(** ** The queue table *)

Section Queue.

Import database.

Lemma order_by_rowid_None (rows : list Z) :
  order_by_rowid_limit_1 rows = None ↔ rows = [].
Proof.
  destruct rows as [|r rest]; simpl; [done|].
  destruct (order_by_rowid_limit_1 rest); split; intros; discriminate.
Qed.

Lemma order_by_rowid_Some (rows : list Z) (m : Z) :
  order_by_rowid_limit_1 rows = Some m ↔ m ∈ rows ∧ ∀ x, x ∈ rows → m ≤ x.
Proof.
  revert m. induction rows as [|r rest IH]; intros m; simpl.
  { split; [discriminate|]. intros [Hm _]. by apply not_elem_of_nil in Hm. }
  destruct (order_by_rowid_limit_1 rest) as [m'|] eqn:Hrest.
  - destruct (IH m') as [[Hin Hle] _]; [done|]. split.
    + intros [= <-]. split.
      * destruct (Z.min_spec r m') as [[_ ->]|[_ ->]]; set_solver.
      * intros x [->|Hx]%elem_of_cons; [lia|]. specialize (Hle x Hx). lia.
    + intros [Hm Hmin]. f_equal.
      assert (m ≤ r) by (apply Hmin; set_solver).
      assert (m ≤ m') by (apply Hmin; set_solver).
      apply elem_of_cons in Hm as [->|Hm]; [lia|].
      specialize (Hle m Hm). lia.
  - apply order_by_rowid_None in Hrest as ->. split.
    + intros [= <-]. split; [set_solver|].
      intros x [->|Hx]%elem_of_cons; [lia|]. by apply not_elem_of_nil in Hx.
    + intros [Hm _]. apply elem_of_cons in Hm as [->|Hm]; [done|].
      by apply not_elem_of_nil in Hm.
Qed.

Lemma as_truthy_Some (x : option Z) (v : Z) :
  as_truthy x = Some v ↔ x = Some v ∧ v ≠ 0.
Proof.
  unfold as_truthy, truthy. destruct x as [w|]; [|naive_solver].
  case_bool_decide; naive_solver.
Qed.

Lemma as_truthy_None (x : option Z) :
  as_truthy x = None ↔ x = None ∨ x = Some 0.
Proof.
  unfold as_truthy, truthy. destruct x as [w|]; [|naive_solver].
  case_bool_decide; naive_solver.
Qed.

Lemma get_first_in_queue_elem (e : option Z) (d : Database) (c : Z) :
  get_first_in_queue e d = Some c → c ∈ queue d.
Proof.
  unfold get_first_in_queue.
  destruct (as_truthy e); intros [Hc _]%order_by_rowid_Some; [|done].
  by apply list_elem_of_filter in Hc as [_ Hc].
Qed.

Lemma get_first_in_queue_excluded (e : Z) (d : Database) (c : Z) :
  e ≠ 0 → get_first_in_queue (Some e) d = Some c → c ≠ e.
Proof.
  intros He. unfold get_first_in_queue.
  replace (as_truthy (Some e)) with (Some e) by (symmetry; by apply as_truthy_Some).
  intros [Hc _]%order_by_rowid_Some.
  by apply list_elem_of_filter in Hc as [Hc _].
Qed.

Lemma get_first_in_queue_none (e : Z) (d : Database) :
  e ≠ 0 → get_first_in_queue (Some e) d = None → ∀ x, x ∈ queue d → x = e.
Proof.
  intros He. unfold get_first_in_queue.
  replace (as_truthy (Some e)) with (Some e) by (symmetry; by apply as_truthy_Some).
  intros Hnil%order_by_rowid_None x Hx.
  destruct (decide (x = e)) as [|Hne]; [done|].
  assert (x ∈ filter (λ r, r ≠ e) (queue d)) as Hin by by apply list_elem_of_filter.
  rewrite Hnil in Hin. by apply not_elem_of_nil in Hin.
Qed.

End Queue.

(** C9. Enqueueing a user who is already in the queue changes nothing: the
    database, and so the queue with every entry at its position, is the
    same, and no second entry for the user appears. *)
Theorem add_to_queue_already_queued (user_id : Z) (d : database.Database) :
  user_id ∈ database.queue d →
  database.add_to_queue user_id d = d
  ∧ database.queue (database.add_to_queue user_id d) = database.queue d
  ∧ ∀ i, database.queue d !! i = Some user_id →
         database.queue (database.add_to_queue user_id d) !! i = Some user_id.
Proof.
  intros Hin. unfold database.add_to_queue.
  destruct (decide (user_id ∈ database.queue d)); [done|contradiction].
Qed.

(** What [get_first_in_queue] returns for a nonzero excluded id: the least
    id among the queued users other than the excluded one. *)
Lemma get_first_in_queue_least (excluded : Z) (d : database.Database) (c : Z) :
  excluded ≠ 0 →
  database.get_first_in_queue (Some excluded) d = Some c ↔
  c ∈ database.queue d ∧ c ≠ excluded
  ∧ ∀ x, x ∈ database.queue d → x ≠ excluded → c ≤ x.
Proof.
  intros He. unfold database.get_first_in_queue.
  replace (as_truthy (Some excluded)) with (Some excluded)
    by (symmetry; by apply as_truthy_Some).
  rewrite order_by_rowid_Some. setoid_rewrite list_elem_of_filter.
  naive_solver.
Qed.

(** C10. [get_first_in_queue] applies the exclusion only for a nonzero
    excluded id.  With [exclude_user_id = 0] nothing is excluded: the query
    is the one without an excluded id, it returns the least id of the whole
    queue, and so it returns user 0 whenever 0 arrived first and no other
    queued id is negative.  With a nonzero excluded id the result is the
    least queued id other than the excluded one, and so always differs
    from it. *)
Theorem get_first_in_queue_zero_is_not_skipped (d : database.Database) :
  (∀ rest, database.queue d = 0 :: rest → (∀ x, x ∈ rest → 0 ≤ x) →
     database.get_first_in_queue (Some 0) d = Some 0)
  ∧ database.get_first_in_queue (Some 0) d
    = database.get_first_in_queue None d
  ∧ (∀ r, database.get_first_in_queue (Some 0) d = Some r ↔
          r ∈ database.queue d ∧ ∀ x, x ∈ database.queue d → r ≤ x)
  ∧ (∀ excluded r, excluded ≠ 0 →
       (database.get_first_in_queue (Some excluded) d = Some r ↔
        r ∈ database.queue d ∧ r ≠ excluded
        ∧ ∀ x, x ∈ database.queue d → x ≠ excluded → r ≤ x)
       ∧ (database.get_first_in_queue (Some excluded) d = Some r →
          r ≠ excluded)).
Proof.
  split; [|split; [|split]].
  - intros rest Hq Hpos. unfold database.get_first_in_queue. simpl.
    apply order_by_rowid_Some. rewrite Hq. split; [set_solver|].
    intros x [->|Hx]%elem_of_cons; [lia|by apply Hpos].
  - done.
  - intros r. unfold database.get_first_in_queue. simpl.
    apply order_by_rowid_Some.
  - intros excluded r Hne. split; [by apply get_first_in_queue_least|].
    intros Hr. by eapply get_first_in_queue_excluded.
Qed.

(** ** Pairings *)

Section Pairings.

Import database.

Lemma elem_of_participants (u : Z) (rows : list (Z * Z)) :
  u ∈ participants rows ↔ ∃ r, r ∈ rows ∧ (r.1 = u ∨ r.2 = u).
Proof.
  unfold participants. rewrite list_elem_of_bind. split.
  - intros (r & Hu & Hr). exists r. set_solver.
  - intros (r & Hr & Hu). exists r. set_solver.
Qed.

Lemma participants_cons (r : Z * Z) (rows : list (Z * Z)) :
  participants (r :: rows) = r.1 :: r.2 :: participants rows.
Proof. reflexivity. Qed.

Lemma participants_snoc (rows : list (Z * Z)) (a b : Z) :
  participants (rows ++ [(a, b)]) = participants rows ++ [a; b].
Proof. unfold participants. by rewrite bind_app. Qed.

Lemma participants_filter (P : Z * Z → Prop) `{∀ r, Decision (P r)}
    (rows : list (Z * Z)) :
  participants (filter P rows) `sublist_of` participants rows.
Proof.
  induction rows as [|r rows IH]; [done|].
  rewrite filter_cons. destruct (decide (P r)).
  - rewrite !participants_cons. by do 2 apply sublist_skip.
  - rewrite participants_cons. by do 2 apply sublist_cons.
Qed.

Lemma head_filter_None {A} (P : A → Prop) `{∀ x, Decision (P x)} (l : list A) :
  head (filter P l) = None ↔ ∀ x, x ∈ l → ¬ P x.
Proof.
  induction l as [|a l IH]; simpl.
  { split; [|done]. intros _ x Hx. by apply not_elem_of_nil in Hx. }
  rewrite filter_cons. destruct (decide (P a)); simpl.
  - split; [discriminate|]. intros Hall. exfalso. apply (Hall a); set_solver.
  - rewrite IH. split.
    + intros Hall x [->|Hx]%elem_of_cons; auto.
    + intros Hall x Hx. apply Hall. set_solver.
Qed.

Lemma head_filter_Some {A} (P : A → Prop) `{∀ x, Decision (P x)} (l : list A)
    (a : A) :
  head (filter P l) = Some a → a ∈ l ∧ P a.
Proof.
  intros Hhd. assert (a ∈ filter P l) as Hin.
  { destruct (filter P l); [discriminate|]. injection Hhd as ->. set_solver. }
  by apply list_elem_of_filter in Hin as [? ?].
Qed.

Lemma get_partner_None (u : Z) (d : Database) :
  get_partner u d = None ↔ u ∉ participants (chats d).
Proof.
  unfold get_partner. rewrite elem_of_participants.
  destruct (head (filter (λ r, r.1 = u) (chats d))) as [r|] eqn:H1.
  { apply head_filter_Some in H1 as [? ?]. split; [discriminate|].
    intros Hno. exfalso. apply Hno. eauto. }
  destruct (head (filter (λ r, r.2 = u) (chats d))) as [r|] eqn:H2.
  { apply head_filter_Some in H2 as [? ?]. split; [discriminate|].
    intros Hno. exfalso. apply Hno. eauto. }
  split; [|done]. intros _ (r & Hr & [Hu|Hu]).
  - eapply head_filter_None in H1; eauto.
  - eapply head_filter_None in H2; eauto.
Qed.

Lemma get_partner_Some (u p : Z) (d : Database) :
  get_partner u d = Some p → (u, p) ∈ chats d ∨ (p, u) ∈ chats d.
Proof.
  unfold get_partner.
  destruct (head (filter (λ r, r.1 = u) (chats d))) as [[a b]|] eqn:H1.
  { apply head_filter_Some in H1 as [? ?]. simpl in *. intros [= <-].
    left. by subst. }
  destruct (head (filter (λ r, r.2 = u) (chats d))) as [[a b]|] eqn:H2;
    [|discriminate].
  apply head_filter_Some in H2 as [? ?]. simpl in *. intros [= <-].
  right. by subst.
Qed.

(** When no user appears twice in [chats], the row of a user is unique. *)
Lemma pairing_unique (u : Z) (rows : list (Z * Z)) (r r' : Z * Z) :
  NoDup (participants rows) →
  r ∈ rows → r' ∈ rows → r.1 = u ∨ r.2 = u → r'.1 = u ∨ r'.2 = u → r = r'.
Proof.
  induction rows as [|r0 rows IH]; intros Hnd Hr Hr' Hu Hu'.
  { by apply not_elem_of_nil in Hr. }
  rewrite participants_cons in Hnd.
  apply NoDup_cons in Hnd as [H1 Hnd]. apply NoDup_cons in Hnd as [H2 Hnd].
  assert (∀ x, x ∈ rows → x.1 = u ∨ x.2 = u → r0.1 = u ∨ r0.2 = u → False)
    as Hclash.
  { intros x Hx Hxu H0u.
    assert (u ∈ participants rows) by (apply elem_of_participants; eauto).
    destruct H0u as [<-|<-]; [apply H1; set_solver|by apply H2]. }
  apply elem_of_cons in Hr as [->|Hr]; apply elem_of_cons in Hr' as [->|Hr'].
  - done.
  - exfalso. eauto.
  - exfalso. eauto.
  - by apply IH.
Qed.

Lemma pairings_of_nil (u : Z) (rows : list (Z * Z)) :
  pairings_of u rows = [] ↔ u ∉ participants rows.
Proof.
  rewrite elem_of_participants. unfold pairings_of. split.
  - intros Hnil (r & Hr & Hu).
    assert (r ∈ filter (λ r, r.1 = u ∨ r.2 = u) rows) as Hin
      by by apply list_elem_of_filter.
    rewrite Hnil in Hin. by apply not_elem_of_nil in Hin.
  - intros Hno. destruct (filter _ rows) as [|r rest] eqn:Hf; [done|].
    exfalso. apply Hno. exists r.
    assert (r ∈ filter (λ r, r.1 = u ∨ r.2 = u) rows) as Hin
      by (rewrite Hf; set_solver).
    apply list_elem_of_filter in Hin. naive_solver.
Qed.

Lemma pairings_of_length (u : Z) (rows : list (Z * Z)) :
  NoDup (participants rows) → (length (pairings_of u rows) ≤ 1)%nat.
Proof.
  induction rows as [|r0 rows IH]; intros Hnd; [simpl; lia|].
  rewrite participants_cons in Hnd.
  apply NoDup_cons in Hnd as [H1 Hnd]. apply NoDup_cons in Hnd as [H2 Hnd].
  unfold pairings_of. rewrite filter_cons.
  destruct (decide (r0.1 = u ∨ r0.2 = u)) as [Hu|Hu]; [|by apply IH].
  assert (u ∉ participants rows) as Hno.
  { destruct Hu as [<-|<-]; [set_solver|done]. }
  apply pairings_of_nil in Hno. unfold pairings_of in Hno. rewrite Hno.
  simpl. lia.
Qed.

(** Leaving a chat: after the row found by [get_partner] is deleted, the
    user appears in no row. *)
Lemma remove_chat_by_users_leaves (u p : Z) (d : Database) :
  NoDup (participants (chats d)) →
  get_partner u d = Some p →
  u ∉ participants (chats (remove_chat_by_users u p d)).
Proof.
  intros Hnd Hp%get_partner_Some. simpl.
  rewrite elem_of_participants. intros (r & Hr & Hu).
  apply list_elem_of_filter in Hr as [Hkeep Hr]. apply Hkeep.
  destruct Hp as [Hp|Hp].
  - assert (r = (u, p)) as -> by (eapply pairing_unique; eauto). simpl. auto.
  - assert (r = (p, u)) as -> by (eapply pairing_unique; eauto). simpl. auto.
Qed.

End Pairings.

(** ** The invariant of the matchmaking state *)

Section Invariant.

Import database.

Lemma matching_inv_init : matching_inv init_db.
Proof.
  split; simpl; try apply NoDup_nil_2; try lia; try apply not_elem_of_nil.
  intros u Hu. by apply not_elem_of_nil in Hu.
Qed.

(** Deleting rows keeps the invariant. *)
Lemma matching_inv_shrink (d d' : Database) :
  matching_inv d →
  queue d' `sublist_of` queue d →
  participants (chats d') `sublist_of` participants (chats d) →
  matching_inv d'.
Proof.
  intros [H1 H2 H3 H4 H5] Hq Hc. split.
  - by eapply sublist_NoDup.
  - intros u Hu Hin. eapply H2; eauto using elem_of_sublist.
  - apply sublist_length in Hq. lia.
  - eauto using elem_of_sublist.
  - eauto using elem_of_sublist.
Qed.

Lemma blocked_idle_shrink (d d' : Database) :
  blocked_idle d →
  blocks d' ⊆ blocks d →
  queue d' `sublist_of` queue d →
  participants (chats d') `sublist_of` participants (chats d) →
  blocked_idle d'.
Proof.
  intros Hb Hsub Hq Hc u Hu. destruct (Hb u) as [? ?]; [set_solver|].
  split; eauto using elem_of_sublist.
Qed.

Lemma matching_inv_remove_from_queue (u : Z) (d : Database) :
  matching_inv d → matching_inv (remove_from_queue u d).
Proof.
  intros. eapply matching_inv_shrink; [eassumption|apply sublist_filter|done].
Qed.

Lemma matching_inv_remove_chat_by_users (u p : Z) (d : Database) :
  matching_inv d → matching_inv (remove_chat_by_users u p d).
Proof.
  intros. eapply matching_inv_shrink;
    [eassumption|done|apply participants_filter].
Qed.

Lemma blocked_idle_remove_from_queue (u : Z) (d : Database) :
  blocked_idle d → blocked_idle (remove_from_queue u d).
Proof.
  intros. eapply blocked_idle_shrink;
    [eassumption|done|apply sublist_filter|done].
Qed.

Lemma blocked_idle_remove_chat_by_users (u p : Z) (d : Database) :
  blocked_idle d → blocked_idle (remove_chat_by_users u p d).
Proof.
  intros. eapply blocked_idle_shrink;
    [eassumption|done|done|apply participants_filter].
Qed.

(** [if partner:] after [get_partner]: a truthy partner is a partner, and
    a falsy one means the user is in no chat. *)
Lemma partner_truthy (u p : Z) (d : Database) :
  as_truthy (get_partner u d) = Some p → get_partner u d = Some p.
Proof. by intros [? ?]%as_truthy_Some. Qed.

Lemma partner_falsy (u : Z) (d : Database) :
  matching_inv d →
  as_truthy (get_partner u d) = None → u ∉ participants (chats d).
Proof.
  intros Hinv [Hp|Hp]%as_truthy_None; [by apply get_partner_None|].
  exfalso. apply (inv_pairs_nonzero d Hinv).
  apply elem_of_participants.
  apply get_partner_Some in Hp as [Hp|Hp]; eexists; split; eauto.
Qed.

(** A user who waits alone: the queue is exactly that user. *)
Lemma queue_singleton (c : Z) (d : Database) :
  matching_inv d → c ∈ queue d → queue d = [c].
Proof.
  intros Hinv Hc. pose proof (inv_queue_short d Hinv) as Hlen.
  destruct (queue d) as [|x [|y rest]]; simpl in Hlen; [|set_solver|lia].
  by apply not_elem_of_nil in Hc.
Qed.

(** Pairing the requester with the candidate found in the queue. *)
Lemma matching_inv_pair (u c : Z) (d d' : Database) :
  matching_inv d → u ≠ 0 → u ∉ participants (chats d) →
  as_truthy (get_first_in_queue (Some u) d) = Some c →
  add_chat u c (remove_from_queue c d) = Some d' →
  matching_inv d' ∧ queue d' = [] ∧ chats d' = chats d ++ [(u, c)]
  ∧ blocks d' = blocks d ∧ c ∈ queue d.
Proof.
  intros Hinv Hu Hfree [Hc Hc0]%as_truthy_Some Hadd.
  pose proof (get_first_in_queue_elem _ _ _ Hc) as Hin.
  pose proof (get_first_in_queue_excluded _ _ _ Hu Hc) as Hne.
  pose proof (queue_singleton _ _ Hinv Hin) as Hq.
  assert (remove_from_queue c d = with_queue d []) as Hrm.
  { unfold remove_from_queue. rewrite Hq, filter_cons.
    by destruct (decide (c ≠ c)). }
  rewrite Hrm in Hadd. unfold add_chat in Hadd.
  case_decide; [discriminate|]. injection Hadd as <-. simpl.
  split; [|repeat split; set_solver]. destruct Hinv as [H1 H2 H3 H4 H5].
  assert (c ∉ participants (chats d)) as Hcfree.
  { intros Hp. apply (H2 c Hp). done. }
  split; simpl; rewrite ?participants_snoc.
  - apply NoDup_app. split; [done|]. split.
    + intros x Hx [->|[->|Hnil]%elem_of_cons]%elem_of_cons; try done.
      by apply not_elem_of_nil in Hnil.
    + apply NoDup_cons. split; [set_solver|]. apply NoDup_singleton.
  - intros x _. apply not_elem_of_nil.
  - lia.
  - rewrite elem_of_app. intros [?|?]; [done|]. set_solver.
  - apply not_elem_of_nil.
Qed.

(** Joining the queue when no candidate is found. *)
Lemma matching_inv_enqueue (u : Z) (d : Database) :
  matching_inv d → u ≠ 0 → u ∉ participants (chats d) →
  as_truthy (get_first_in_queue (Some u) d) = None →
  matching_inv (add_to_queue u d) ∧ queue (add_to_queue u d) = [u]
  ∧ chats (add_to_queue u d) = chats d ∧ blocks (add_to_queue u d) = blocks d.
Proof.
  intros Hinv Hu Hfree Hnone.
  assert (∀ x, x ∈ queue d → x = u) as Hall.
  { apply as_truthy_None in Hnone as [Hnone|Hzero].
    - by apply get_first_in_queue_none.
    - apply get_first_in_queue_elem in Hzero.
      by apply (inv_queue_nonzero d Hinv) in Hzero. }
  assert (queue (add_to_queue u d) = [u]) as Hq.
  { unfold add_to_queue. case_decide as Hin.
    - by apply queue_singleton.
    - simpl. destruct (queue d) as [|x rest]; [done|].
      exfalso. apply Hin. rewrite (Hall x); set_solver. }
  assert (chats (add_to_queue u d) = chats d) as Hch.
  { unfold add_to_queue. by case_decide. }
  assert (blocks (add_to_queue u d) = blocks d) as Hbl.
  { unfold add_to_queue. by case_decide. }
  split; [|done]. destruct Hinv as [H1 H2 H3 H4 H5].
  split; rewrite ?Hq, ?Hch; try done.
  - intros x Hx [->|Hnil]%elem_of_cons; [done|].
    by apply not_elem_of_nil in Hnil.
  - intros [?|Hnil]%elem_of_cons; [done|]. by apply not_elem_of_nil in Hnil.
Qed.

End Invariant.

(** ** The handlers keep the invariant *)

Section Preservation.

Import database.

Variable ADMIN_ID : Z.

(** The second half of [find_partner], for a user who is in no chat. *)
Lemma pair_or_enqueue_inv (u : Z) (d : Database) :
  matching_inv d → blocked_idle d → u ≠ 0 → u ∉ blocks d →
  u ∉ participants (chats d) →
  match as_truthy (get_first_in_queue (Some u) d) with
  | Some c =>
      matching_inv (remove_from_queue c d)
      ∧ blocked_idle (remove_from_queue c d)
      ∧ ∀ d', add_chat u c (remove_from_queue c d) = Some d' →
              matching_inv d' ∧ blocked_idle d'
  | None => matching_inv (add_to_queue u d) ∧ blocked_idle (add_to_queue u d)
  end.
Proof.
  intros Hinv Hidle Hu Hnb Hfree.
  destruct (as_truthy (get_first_in_queue (Some u) d)) as [c|] eqn:Hc.
  - split; [by apply matching_inv_remove_from_queue|].
    split; [by apply blocked_idle_remove_from_queue|].
    intros d' Hadd.
    destruct (matching_inv_pair u c d d') as (Hinv' & Hq & Hch & Hbl & Hin);
      try done.
    split; [done|]. intros b Hb. rewrite Hbl in Hb.
    destruct (Hidle b Hb) as [Hb1 Hb2]. rewrite Hq, Hch, participants_snoc.
    split; [|apply not_elem_of_nil].
    rewrite elem_of_app. intros [?|Hb']; [done|].
    apply elem_of_cons in Hb' as [->|Hb']; [done|].
    apply elem_of_cons in Hb' as [->|Hb']; [done|].
    by apply not_elem_of_nil in Hb'.
  - destruct (matching_inv_enqueue u d) as (Hinv' & Hq & Hch & Hbl); try done.
    split; [done|]. intros b Hb. rewrite Hbl in Hb.
    destruct (Hidle b Hb) as [Hb1 Hb2]. rewrite Hq, Hch. split; [done|].
    intros [->|Hb']%elem_of_cons; [done|]. by apply not_elem_of_nil in Hb'.
Qed.

Lemma find_partner_inv (uid : Z) (st : Bot) :
  bot_inv st → uid ≠ 0 → uid ∉ blocks (db st) →
  bot_inv (state_after (find_partner uid) st).
Proof.
  intros [Hinv Hidle] Hu Hnb. unfold bot_inv, find_partner. unfold_steps. cbn.
  destruct (as_truthy (get_partner uid (db st))) as [p|] eqn:Hp; cbn.
  - pose proof (pair_or_enqueue_inv uid (remove_chat_by_users uid p (db st)))
      as Hnext.
    destruct (as_truthy (get_first_in_queue (Some uid) _)) as [c|]; cbn.
    + destruct Hnext as (H1 & H2 & H3);
        [by apply matching_inv_remove_chat_by_users
        |by apply blocked_idle_remove_chat_by_users|done|done
        |apply remove_chat_by_users_leaves;
           [apply Hinv|by apply partner_truthy]|].
      destruct (add_chat uid c _) as [d'|] eqn:Hadd; cbn; [by apply H3|done].
    + apply Hnext;
        [by apply matching_inv_remove_chat_by_users
        |by apply blocked_idle_remove_chat_by_users|done|done
        |apply remove_chat_by_users_leaves;
           [apply Hinv|by apply partner_truthy]].
  - pose proof (pair_or_enqueue_inv uid (db st) Hinv Hidle Hu Hnb
                  (partner_falsy _ _ Hinv Hp)) as Hnext.
    destruct (as_truthy (get_first_in_queue (Some uid) _)) as [c|]; cbn.
    + destruct Hnext as (H1 & H2 & H3).
      destruct (add_chat uid c _) as [d'|] eqn:Hadd; cbn; [by apply H3|done].
    + done.
Qed.

(** A handler that leaves [queue], [chats] and [blocks] alone. *)
Lemma bot_inv_same_tables (st st' : Bot) :
  queue (db st') = queue (db st) → chats (db st') = chats (db st) →
  blocks (db st') = blocks (db st) → bot_inv st → bot_inv st'.
Proof.
  intros Hq Hc Hb [[H1 H2 H3 H4 H5] Hidle]. split.
  - split; rewrite ?Hq, ?Hc; done.
  - unfold blocked_idle. rewrite Hq, Hc, Hb. done.
Qed.

Lemma state_after_eq {A} (h : Handler A) (st st' : Bot) (r : option A)
    (log : list Call) :
  h st = (r, st', log) → st' = state_after h st.
Proof. intros H. unfold state_after. by rewrite H. Qed.

Lemma cmd_next_inv (message : tg.Message) (clock : Q) (now : Z)
    (member : bool) (st : Bot) :
  bot_inv st → tg.id (tg.from_user message) ≠ 0 →
  bot_inv (state_after (cmd_next message clock now member) st).
Proof.
  intros Hinv Hu. unfold cmd_next, check_limit. unfold_steps. cbn.
  case_bool_decide; cbn; [done|].
  destruct (is_blocked _ _) eqn:Hblocked; cbn.
  { revert Hinv. by apply bot_inv_same_tables. }
  apply bool_decide_eq_false in Hblocked.
  set (info := get_limit_info _ _).
  set (window := if bool_decide (now > reset_time info) then _ else _).
  destruct window as [used reset].
  destruct (truthy (premium info)); cbn;
    [|destruct (bool_decide (used >= LIMIT)); cbn; [destruct member; cbn|]].
  all: try (revert Hinv; by apply bot_inv_same_tables).
  all: destruct (find_partner _ _) as [[r st'] log] eqn:Hrun; cbn;
    apply state_after_eq in Hrun as ->;
    apply find_partner_inv; [|done|done];
    revert Hinv; by apply bot_inv_same_tables.
Qed.

Lemma cmd_stop_inv (message : tg.Message) (st : Bot) :
  bot_inv st → bot_inv (state_after (cmd_stop message) st).
Proof.
  intros [Hinv Hidle]. unfold bot_inv, cmd_stop. unfold_steps. cbn.
  destruct (as_truthy (get_partner _ _)) as [p|]; cbn.
  - split; [by apply matching_inv_remove_chat_by_users
           |by apply blocked_idle_remove_chat_by_users].
  - split; [by apply matching_inv_remove_from_queue
           |by apply blocked_idle_remove_from_queue].
Qed.

(** Blocking: the blocked user leaves the chat and the queue. *)
Lemma block_inv (user_id : Z) (d : Database) :
  matching_inv d → blocked_idle d →
  let d1 := with_blocks d ({[user_id]} ∪ blocks d) in
  let d2 := match as_truthy (get_partner user_id d1) with
            | Some partner => remove_chat_by_users user_id partner d1
            | None => d1
            end in
  matching_inv (remove_from_queue user_id d2)
  ∧ blocked_idle (remove_from_queue user_id d2).
Proof.
  intros Hinv Hidle d1 d2.
  assert (matching_inv d1) as Hinv1 by by destruct Hinv.
  assert (matching_inv d2 ∧ blocks d2 = {[user_id]} ∪ blocks d
          ∧ (user_id ∉ participants (chats d2))
          ∧ participants (chats d2) `sublist_of` participants (chats d)
          ∧ queue d2 = queue d) as (Hinv2 & Hbl & Hfree & Hsub & Hq).
  { subst d2. destruct (as_truthy (get_partner user_id d1)) as [p|] eqn:Hp.
    - split; [by apply matching_inv_remove_chat_by_users|].
      split; [done|]. split; [|split; [apply participants_filter|done]].
      apply remove_chat_by_users_leaves; [apply Hinv1|by apply partner_truthy].
    - split; [done|]. split; [done|].
      split; [by apply partner_falsy|done]. }
  split; [by apply matching_inv_remove_from_queue|].
  intros b Hb. simpl in Hb. rewrite Hbl in Hb. simpl.
  rewrite list_elem_of_filter, Hq.
  apply elem_of_union in Hb as [->%elem_of_singleton|Hb].
  - split; [done|]. intros [? ?]. done.
  - destruct (Hidle b Hb) as [Hb1 Hb2]. split.
    + intros Hin. apply Hb1. by eapply elem_of_sublist.
    + intros [_ ?]. done.
Qed.

Lemma cmd_block_inv (message : tg.Message) (target : Target) (st : Bot) :
  bot_inv st → bot_inv (state_after (cmd_block ADMIN_ID message target) st).
Proof.
  intros [Hinv Hidle]. unfold bot_inv, cmd_block. unfold_steps.
  case_bool_decide; cbn; [done|].
  destruct target as [| |user_id]; cbn; [done|done|].
  unfold block_user. destruct (fits_sqlite_integer user_id); cbn; [|done].
  pose proof (block_inv user_id (db st) Hinv Hidle) as Hblock. cbn in Hblock.
  destruct (as_truthy (get_partner user_id _)) as [p|]; cbn; done.
Qed.

Lemma cmd_unblock_inv (message : tg.Message) (target : Target) (st : Bot) :
  bot_inv st → bot_inv (state_after (cmd_unblock ADMIN_ID message target) st).
Proof.
  intros [Hinv Hidle]. unfold bot_inv, cmd_unblock. unfold_steps.
  case_bool_decide; cbn; [done|].
  destruct target as [| |user_id]; cbn; [done|done|].
  unfold unblock_user. destruct (fits_sqlite_integer user_id); cbn; [|done].
  split; [by destruct Hinv|].
  eapply blocked_idle_shrink; [eassumption|simpl; set_solver|done|done].
Qed.

(** A loop of transport calls makes them in order and keeps the state. *)
Lemma for_each_transport {A} (l : list A) (f : A → Call) (st : Bot) :
  for_each l (λ x st, (Some tt, st, [f x])) st = (Some tt, st, f <$> l).
Proof.
  induction l as [|x l IH]; [done|].
  change (for_each (x :: l) ?body) with (run body x; for_each l body).
  unfold bind. by rewrite IH.
Qed.

Lemma cmd_report_inv (message : tg.Message) (now : Z) (st : Bot) :
  bot_inv st → bot_inv (state_after (cmd_report ADMIN_ID message now) st).
Proof.
  intros Hinv. unfold cmd_report. unfold_steps. cbn.
  destruct (as_truthy (get_partner _ _)) as [p|]; cbn; [|done].
  destruct (default [] _) as [|m msgs] eqn:Hmsgs; cbn;
    rewrite ?for_each_transport; cbn;
    revert Hinv; by apply bot_inv_same_tables.
Qed.

Lemma handle_text_inv (message : tg.Message) (delivered : bool) (st : Bot) :
  bot_inv st → bot_inv (state_after (handle_text message delivered) st).
Proof.
  intros Hinv. unfold handle_text. unfold_steps. cbn.
  destruct (is_blocked _ _); cbn; [done|].
  destruct (as_truthy (get_partner _ _)) as [p|]; cbn; [|done].
  destruct delivered; cbn; revert Hinv; by apply bot_inv_same_tables.
Qed.

Lemma step_inv (u : Update) (st : Bot) :
  bot_inv st → sender u ≠ 0 → bot_inv (step ADMIN_ID u st).
Proof.
  intros Hinv Hu. unfold step. destruct u; simpl.
  - unfold cmd_start. unfold_steps. cbn.
    destruct (is_blocked _ _); cbn; revert Hinv; by apply bot_inv_same_tables.
  - done.
  - by apply cmd_next_inv.
  - by apply cmd_stop_inv.
  - by apply cmd_report_inv.
  - unfold cmd_stats. unfold_steps. by case_bool_decide.
  - by apply cmd_block_inv.
  - by apply cmd_unblock_inv.
  - by apply handle_text_inv.
  - done.
Qed.

Lemma reachable_inv (st : Bot) : reachable ADMIN_ID st → bot_inv st.
Proof.
  induction 1 as [|st u _ IH Hu].
  - split; [apply matching_inv_init|]. intros u Hu. simpl in Hu. set_solver.
  - by apply step_inv.
Qed.

End Preservation.

(** ** Claims on pairings and reports *)

Section Sessions.

Import database.

Variable ADMIN_ID : Z.

(** C1. In every reachable state a user appears in at most one row of
    [chats], and a user who appears in a row is not in the queue; so when a
    match request has created the pairing of the requester with a
    candidate, neither of them is in the queue. *)
Theorem one_pairing_and_not_queued (st : Bot) :
  reachable ADMIN_ID st →
  (∀ u, (length (pairings_of u (chats (db st))) ≤ 1)%nat
        ∧ (pairings_of u (chats (db st)) ≠ [] → u ∉ queue (db st)))
  ∧ (∀ message clock now member candidate,
       let uid := tg.id (tg.from_user message) in
       let st' := state_after (cmd_next message clock now member) st in
       uid ≠ 0 →
       (uid, candidate) ∈ chats (db st') →
       (uid ∉ queue (db st')) ∧ (candidate ∉ queue (db st'))).
Proof.
  intros Hreach. split.
  - intros u. apply reachable_inv in Hreach as [Hinv _]. split.
    + apply pairings_of_length, Hinv.
    + intros Hpaired. apply (inv_paired_not_queued _ Hinv).
      destruct (decide (u ∈ participants (chats (db st)))) as [|Hno]; [done|].
      by apply pairings_of_nil in Hno.
  - intros message clock now member candidate uid st' Hu Hrow.
    assert (bot_inv st') as [Hinv _].
    { apply (reachable_inv ADMIN_ID).
      by apply (reachable_step ADMIN_ID st (Next message clock now member)). }
    split; apply (inv_paired_not_queued _ Hinv), elem_of_participants;
      exists (uid, candidate); simpl; auto.
Qed.

(** Through the handlers at most one user ever waits in the queue. *)
Lemma reachable_queue_at_most_one (st : Bot) :
  reachable ADMIN_ID st → (length (queue (db st)) ≤ 1)%nat.
Proof. intros [Hinv _]%reachable_inv. apply Hinv. Qed.

(** C8. A report from a user who is in no chat is refused with the
    "nothing to report" answer and has no other effect: the state is the
    same, no row is added to [reports], and nothing is sent or copied to
    the moderator. *)
Theorem report_without_partner (message : tg.Message) (now : Z) (st : Bot) :
  let reporter := tg.id (tg.from_user message) in
  pairings_of reporter (chats (db st)) = [] →
  cmd_report ADMIN_ID message now st
  = (Some tt, st, [Db (Get_partner reporter);
                   Answer msg.nothing_to_report])
  ∧ reports (db (state_after (cmd_report ADMIN_ID message now) st))
    = reports (db st)
  ∧ (∀ c, c ∈ calls_of (cmd_report ADMIN_ID message now) st →
          (∀ a b, c ≠ Db (Add_report a b))
          ∧ (∀ chat text, c ≠ Send_message chat text)
          ∧ (∀ chat from_chat m, c ≠ Copy_message chat from_chat m)).
Proof.
  intros reporter Hnone.
  apply pairings_of_nil, get_partner_None in Hnone.
  assert (cmd_report ADMIN_ID message now st
          = (Some tt, st, [Db (Get_partner reporter);
                           Answer msg.nothing_to_report])) as Hrun.
  { unfold cmd_report. unfold_steps. cbn. fold reporter. by rewrite Hnone. }
  split; [done|]. unfold state_after, calls_of. rewrite Hrun. simpl.
  split; [done|].
  intros c [->|[->|Hnil]%elem_of_cons]%elem_of_cons; [done|done|].
  by apply not_elem_of_nil in Hnil.
Qed.

End Sessions.

(** ** Claims on the hourly limit *)

Section Limits.

Import database.

Variable ADMIN_ID : Z.

Lemma is_rate_limited_false (uid : Z) (action : string) (cooldown : Z)
    (clock : Q) (st : Bot) :
  (is_rate_limited uid action cooldown clock st).1.1 = Some false →
  bool_decide
    (clock
     - default 0 (last_action_time st !! (pretty uid +:+ ":" +:+ action))
     < inject_Z cooldown)%Q = false.
Proof. unfold is_rate_limited. by case_bool_decide. Qed.

Lemma truthy_0 : truthy 0 = false.
Proof. reflexivity. Qed.

Lemma truthy_1 : truthy 1 = true.
Proof. reflexivity. Qed.

Lemma truthy_nonzero (v : Z) : v ≠ 0 → truthy v = true.
Proof. intros. unfold truthy. by apply bool_decide_eq_true_2. Qed.

Lemma get_limit_info_insert (uid : Z) (row : LimitRow) (d d' : Database) :
  limits d' = <[uid := row]> (limits d) → get_limit_info uid d' = row.
Proof.
  intros Hlim. unfold get_limit_info. by rewrite Hlim, lookup_insert_eq.
Qed.

Lemma get_limit_info_same (uid : Z) (d d' : Database) :
  limits d' = limits d → get_limit_info uid d' = get_limit_info uid d.
Proof. intros Hlim. unfold get_limit_info. by rewrite Hlim. Qed.

Lemma find_partner_limits (uid : Z) (st : Bot) :
  limits (db (state_after (find_partner uid) st)) = limits (db st).
Proof.
  unfold find_partner. unfold_steps. cbn.
  destruct (as_truthy (get_partner uid (db st))) as [p|]; cbn;
    (destruct (as_truthy (get_first_in_queue (Some uid) _)) as [c|]; cbn;
     [unfold add_chat; case_decide; cbn; done
     |unfold add_to_queue; case_decide; cbn; done]).
Qed.

Lemma find_partner_calls (uid : Z) (st : Bot) :
  ∃ rest, calls_of (find_partner uid) st = Db (Get_partner uid) :: rest
          ∧ Answer msg.limit_reached ∉ rest.
Proof.
  unfold find_partner. unfold_steps. cbn.
  destruct (as_truthy (get_partner uid (db st))) as [p|]; cbn;
    (destruct (as_truthy (get_first_in_queue (Some uid) _)) as [c|]; cbn;
     [destruct (add_chat uid c _); cbn|]);
    eexists; (split; [reflexivity|]);
    rewrite !not_elem_of_cons; repeat split;
    try discriminate; try apply not_elem_of_nil.
Qed.

(** C3. A user whose stored record is 5 uses, reset time [T] and no
    premium asks for a partner at a time not after [T] and is not
    subscribed: the request is refused with the limit message, nothing is
    searched, the stored record is still (5, [T], 0), and [update_limit]
    has been called with exactly these values on this path. *)
Theorem limit_reached_is_written_back (message : tg.Message) (clock : Q)
    (now T : Z) (st : Bot) :
  let uid := tg.id (tg.from_user message) in
  let row := {| used_count := 5; reset_time := T; premium := 0 |} in
  let st' := state_after (cmd_next message clock now false) st in
  (is_rate_limited uid "next" 5 clock st).1.1 = Some false →
  is_blocked uid (db st) = false →
  limits (db st) !! uid = Some row →
  now ≤ T →
  calls_of (cmd_next message clock now false) st
  = gate_calls message
    ++ [Get_chat_member CHANNEL uid; Answer msg.limit_reached;
        Db (Update_limit uid 5 T 0)]
  ∧ db st' = update_limit uid 5 T 0 (db (past_gates message clock st))
  ∧ limits (db st') !! uid = Some row
  ∧ limits (db st') = limits (db st)
  ∧ queue (db st') = queue (db st) ∧ chats (db st') = chats (db st).
Proof.
  intros uid row st' Hrate Hblocked Hrow Hnow.
  apply is_rate_limited_false in Hrate.
  assert (cmd_next message clock now false st
          = (Some tt,
             with_db (past_gates message clock st)
               (update_limit uid 5 T 0 (db (past_gates message clock st))),
             gate_calls message
             ++ [Get_chat_member CHANNEL uid; Answer msg.limit_reached;
                 Db (Update_limit uid 5 T 0)])) as Hrun.
  { unfold cmd_next, check_limit. unfold_steps. cbn. fold uid.
    rewrite Hrate. cbn.
    change (is_blocked uid (add_user _ _ _ _ _)) with (is_blocked uid (db st)).
    rewrite Hblocked. cbn.
    change (get_limit_info uid (add_user _ _ _ _ _))
      with (get_limit_info uid (db st)).
    unfold get_limit_info. rewrite Hrow. cbn.
    rewrite bool_decide_eq_false_2 by lia. cbn. done. }
  unfold st', state_after, calls_of. rewrite Hrun. cbn.
  split; [done|]. split; [done|].
  split; [by rewrite lookup_insert_eq|].
  split; [by apply insert_id|done].
Qed.

(** C4. A user whose stored record is 5 uses, reset time [T] and no
    premium (or who has no stored record, where [T] is the default 0) asks
    for a partner at a time after [T]: the request starts a new window and
    is let through to the search; the stored record is then 1 use and
    reset time [now + 3600], written by one call of [update_limit]. *)
Theorem limit_window_rolls_over (message : tg.Message) (clock : Q)
    (now T : Z) (member : bool) (st : Bot) :
  let uid := tg.id (tg.from_user message) in
  let st' := state_after (cmd_next message clock now member) st in
  (is_rate_limited uid "next" 5 clock st).1.1 = Some false →
  is_blocked uid (db st) = false →
  limits (db st) !! uid
    = Some {| used_count := 5; reset_time := T; premium := 0 |}
  ∨ (limits (db st) !! uid = None ∧ T = 0) →
  now > T →
  limits (db st') !! uid
    = Some {| used_count := 1; reset_time := now + 3600; premium := 0 |}
  ∧ get_limit_info uid (db st')
    = {| used_count := 1; reset_time := now + 3600; premium := 0 |}
  ∧ ∃ rest,
      calls_of (cmd_next message clock now member) st
      = gate_calls message
        ++ [Db (Update_limit uid 1 (now + 3600) 0); Db (Get_partner uid)]
        ++ rest
      ∧ Answer msg.limit_reached ∉ rest.
Proof.
  intros uid st' Hrate Hblocked Hrow Hnow.
  apply is_rate_limited_false in Hrate.
  set (st2 := with_db (past_gates message clock st)
                (update_limit uid 1 (now + 3600) 0
                   (db (past_gates message clock st)))).
  assert (cmd_next message clock now member st
          = (let '(r, st3, log) := find_partner uid st2 in
             (r, st3, gate_calls message
                      ++ Db (Update_limit uid 1 (now + 3600) 0) :: log)))
    as Hrun.
  { unfold cmd_next, check_limit. unfold_steps. cbn. fold uid.
    rewrite Hrate. cbn.
    change (is_blocked uid (add_user _ _ _ _ _)) with (is_blocked uid (db st)).
    rewrite Hblocked. cbn.
    change (get_limit_info uid (add_user _ _ _ _ _))
      with (get_limit_info uid (db st)).
    assert (get_limit_info uid (db st)
            = {| used_count := 5; reset_time := T; premium := 0 |}
            ∨ get_limit_info uid (db st)
              = {| used_count := 0; reset_time := T; premium := 0 |}) as Hinfo.
    { unfold get_limit_info.
      destruct Hrow as [->|[-> ->]]; [by left|by right]. }
    destruct Hinfo as [->| ->]; cbn;
      rewrite bool_decide_eq_true_2 by lia; cbn;
      rewrite truthy_0; unfold LIMIT;
      rewrite (bool_decide_eq_false_2 (0 >= 5)) by lia; cbn;
      by destruct (find_partner uid _) as [[r st3] log]. }
  pose proof (find_partner_limits uid st2) as Hlim.
  destruct (find_partner_calls uid st2) as (rest & Hcalls & Hrest).
  unfold st', state_after, calls_of in *. rewrite Hrun.
  destruct (find_partner uid st2) as [[r st3] log]. cbn in *.
  assert (limits (db st3) !! uid
          = Some {| used_count := 1; reset_time := now + 3600; premium := 0 |})
    as Hstored by (rewrite Hlim; apply lookup_insert_eq).
  split; [done|]. split; [unfold get_limit_info; by rewrite Hstored|].
  exists rest. by rewrite Hcalls.
Qed.

(** [cmd_next] stops before the limit is looked at: nothing is stored in
    [limits] and the limit message is not sent. *)
Lemma cmd_next_stopped_at_gate (message : tg.Message) (clock : Q) (now : Z)
    (member : bool) (st : Bot) :
  let uid := tg.id (tg.from_user message) in
  (is_rate_limited uid "next" 5 clock st).1.1 ≠ Some false
  ∨ is_blocked uid (db st) = true →
  limits (db (state_after (cmd_next message clock now member) st))
  = limits (db st)
  ∧ Answer msg.limit_reached ∉ calls_of (cmd_next message clock now member) st.
Proof.
  intros uid Hgate. unfold cmd_next, check_limit. unfold_steps.
  unfold is_rate_limited in Hgate. cbn. fold uid. fold uid in Hgate.
  case_bool_decide; cbn.
  { split; [done|]. rewrite not_elem_of_cons. split; [discriminate|].
    apply not_elem_of_nil. }
  destruct Hgate as [Hgate|Hgate]; [done|].
  change (is_blocked uid (add_user _ _ _ _ _)) with (is_blocked uid (db st)).
  rewrite Hgate. cbn. split; [done|].
  rewrite !not_elem_of_cons. repeat split; try discriminate.
  apply not_elem_of_nil.
Qed.

(** [cmd_next] past the rate limiter and the block check does what
    [spec_evaluate] says: it stores the record of the verdict; when the
    verdict allows, it goes on to the search and never sends the limit
    message; when it denies, it sends the limit message and stops. *)
Lemma cmd_next_evaluates (message : tg.Message) (clock : Q) (now : Z)
    (member : bool) (st : Bot) :
  let uid := tg.id (tg.from_user message) in
  let st' := state_after (cmd_next message clock now member) st in
  let calls := calls_of (cmd_next message clock now member) st in
  let verdict := spec_evaluate (get_limit_info uid (db st)) now member in
  (is_rate_limited uid "next" 5 clock st).1.1 = Some false →
  is_blocked uid (db st) = false →
  limits (db st') = <[uid := verdict.2]> (limits (db st))
  ∧ (if verdict.1
     then Db (Get_partner uid) ∈ calls ∧ (Answer msg.limit_reached ∉ calls)
     else Answer msg.limit_reached ∈ calls
          ∧ st' = with_db (past_gates message clock st)
                    (update_limit uid (used_count verdict.2)
                       (reset_time verdict.2) (premium verdict.2)
                       (db (past_gates message clock st)))).
Proof.
  intros uid st' calls verdict Hrate Hblocked.
  apply is_rate_limited_false in Hrate.
  subst st' calls verdict.
  unfold cmd_next, check_limit, spec_evaluate. unfold_steps. cbn. fold uid.
  rewrite Hrate. cbn.
  change (is_blocked uid (add_user _ _ _ _ _)) with (is_blocked uid (db st)).
  rewrite Hblocked. cbn.
  change (get_limit_info uid (add_user _ _ _ _ _))
    with (get_limit_info uid (db st)).
  set (info := get_limit_info uid (db st)).
  change (bool_decide (premium info ≠ 0)) with (truthy (premium info)).
  unfold LIMIT, RESET_SECONDS.
  destruct (bool_decide (now > reset_time info)); cbn;
    (destruct (truthy (premium info)) eqn:Hprem; cbn; rewrite ?Hprem; cbn;
     [|match goal with
       | |- context [bool_decide (?u >= 5)] =>
           destruct (bool_decide (u >= 5)); cbn;
           [destruct member; cbn; rewrite ?truthy_1; cbn|rewrite ?Hprem; cbn]
       end]).
  all: try match goal with
    | |- context [find_partner ?u ?s] =>
        pose proof (find_partner_limits u s) as Hlim;
        destruct (find_partner_calls u s) as (rest & Hcalls & Hrest);
        unfold state_after, calls_of in Hlim, Hcalls;
        destruct (find_partner u s) as [[r st3] log]; cbn in *;
        subst log; split; [done|];
        split;
        [rewrite !elem_of_cons; by auto 10
        |rewrite !not_elem_of_cons; repeat split; try discriminate; done]
    end.
  all: split; [done|]; split; [|done];
    rewrite !elem_of_cons; by auto 10.
Qed.

(** Only [cmd_next] writes to [limits]. *)
Lemma step_limits (u : Update) (st : Bot) :
  (∀ message clock now member, u ≠ Next message clock now member) →
  limits (db (step ADMIN_ID u st)) = limits (db st).
Proof.
  intros Hu. unfold step. destruct u; simpl.
  - unfold cmd_start. unfold_steps. cbn. by destruct (is_blocked _ _).
  - done.
  - by destruct (Hu message clock now member).
  - unfold cmd_stop. unfold_steps. cbn.
    by destruct (as_truthy (get_partner _ _)).
  - unfold cmd_report. unfold_steps. cbn.
    destruct (as_truthy (get_partner _ _)) as [p|]; cbn; [|done].
    destruct (default [] _) as [|m msgs]; cbn;
      rewrite ?for_each_transport; done.
  - unfold cmd_stats. unfold_steps. by case_bool_decide.
  - unfold cmd_block. unfold_steps. case_bool_decide; cbn; [done|].
    destruct target as [| |user_id]; cbn; [done|done|].
    unfold database.block_user.
    destruct (database.fits_sqlite_integer user_id); cbn; [|done].
    by destruct (as_truthy (get_partner user_id _)).
  - unfold cmd_unblock. unfold_steps. case_bool_decide; cbn; [done|].
    destruct target as [| |user_id]; cbn; [done|done|].
    unfold database.unblock_user.
    by destruct (database.fits_sqlite_integer user_id).
  - unfold handle_text. unfold_steps. cbn.
    destruct (is_blocked _ _); cbn; [done|].
    destruct (as_truthy (get_partner _ _)) as [p|]; cbn; [|done].
    by destruct delivered.
  - done.
Qed.

(** The premium flag of a user is never cleared. *)
Lemma step_premium (u : Update) (uid : Z) (st : Bot) :
  premium (get_limit_info uid (db st)) ≠ 0 →
  premium (get_limit_info uid (db (step ADMIN_ID u st))) ≠ 0.
Proof.
  intros Hprem.
  destruct u as [| |message clock now member| | | | | | |];
    try (unfold get_limit_info in *; rewrite step_limits; [done|];
         intros; discriminate).
  unfold step. simpl. set (sender := tg.id (tg.from_user message)).
  destruct (decide ((is_rate_limited sender "next" 5 clock st).1.1
                    = Some false)) as [Hrate|Hrate];
    [destruct (is_blocked sender (db st)) eqn:Hblocked|].
  2: { destruct (cmd_next_evaluates message clock now member st Hrate Hblocked)
         as [Hlim _].
       unfold get_limit_info at 1. rewrite Hlim. fold sender.
       destruct (decide (sender = uid)) as [->|Hne].
       - rewrite lookup_insert_eq. unfold spec_evaluate.
         rewrite (bool_decide_eq_true_2 _ Hprem). done.
       - rewrite lookup_insert_ne by done. done. }
  all: destruct (cmd_next_stopped_at_gate message clock now member st)
         as [Hlim _]; [auto|];
       unfold get_limit_info in *; by rewrite Hlim.
Qed.

Lemma run_updates_premium (us : list Update) (uid : Z) (st : Bot) :
  premium (get_limit_info uid (db st)) ≠ 0 →
  premium (get_limit_info uid (db (run_updates ADMIN_ID us st))) ≠ 0.
Proof.
  revert st. induction us as [|u us IH]; intros st Hprem; [done|].
  simpl. by apply IH, step_premium.
Qed.

Lemma is_rate_limited_cases (uid : Z) (action : string) (cooldown : Z)
    (clock : Q) (st : Bot) :
  (is_rate_limited uid action cooldown clock st).1.1 = Some false
  ∨ (is_rate_limited uid action cooldown clock st).1.1 ≠ Some false.
Proof. unfold is_rate_limited. case_bool_decide; simpl; [by right|by left]. Qed.

(** C5. For a user whose stored record has the premium flag, a match
    request is never refused with the limit message, reaches the search as
    soon as the rate limiter and the block check let it through, and
    stores a record with the same flag and a count that is the stored one
    or 0 (a new window), never one more.  When a user at the limit passes
    the subscription check, the stored flag becomes 1 with the count
    unchanged.  A flag that is set stays set whatever updates follow. *)
Theorem premium_lifts_the_limit (message : tg.Message) (clock : Q) (now : Z)
    (member : bool) (st : Bot) :
  let uid := tg.id (tg.from_user message) in
  let info := get_limit_info uid (db st) in
  let st' := state_after (cmd_next message clock now member) st in
  let calls := calls_of (cmd_next message clock now member) st in
  let info' := get_limit_info uid (db st') in
  (premium info ≠ 0 →
     (Answer msg.limit_reached ∉ calls)
     ∧ ((is_rate_limited uid "next" 5 clock st).1.1 = Some false →
        is_blocked uid (db st) = false → Db (Get_partner uid) ∈ calls)
     ∧ premium info' = premium info
     ∧ (used_count info' = used_count info
        ∨ (used_count info' = 0 ∧ now > reset_time info)))
  ∧ (premium info = 0 → 5 ≤ used_count info → now ≤ reset_time info →
     member = true →
     (is_rate_limited uid "next" 5 clock st).1.1 = Some false →
     is_blocked uid (db st) = false →
     info' = {| used_count := used_count info; reset_time := reset_time info;
                premium := 1 |}
     ∧ Db (Get_partner uid) ∈ calls ∧ (Answer msg.limit_reached ∉ calls))
  ∧ (∀ user_id updates,
       premium (get_limit_info user_id (db st)) ≠ 0 →
       premium (get_limit_info user_id (db (run_updates ADMIN_ID updates st)))
       ≠ 0).
Proof.
  intros uid info st' calls info'. subst info' calls st'. split; [|split].
  - intros Hprem.
    destruct (is_rate_limited_cases uid "next" 5 clock st) as [Hrate|Hrate];
      [destruct (is_blocked uid (db st)) eqn:Hblocked|].
    2: { destruct (cmd_next_evaluates message clock now member st Hrate Hblocked)
           as [Hlim Hverdict].
         fold uid info in Hlim, Hverdict. unfold spec_evaluate in Hlim, Hverdict.
         rewrite (bool_decide_eq_true_2 _ Hprem) in Hlim, Hverdict.
         simpl in Hlim, Hverdict. destruct Hverdict as [Hsearch Hallowed].
         split; [done|]. split; [done|].
         rewrite (get_limit_info_insert _ _ _ _ Hlim). simpl.
         split; [done|]. case_bool_decide; [right|left]; done. }
    all: destruct (cmd_next_stopped_at_gate message clock now member st)
           as [Hlim Hcalls]; [auto|];
         split; [done|]; split; [intros; congruence|];
         rewrite (get_limit_info_same uid _ _ Hlim);
         split; [done|by left].
  - intros Hprem Hused Hnow -> Hrate Hblocked.
    destruct (cmd_next_evaluates message clock now true st Hrate Hblocked)
      as [Hlim Hverdict].
    fold uid info in Hlim, Hverdict. unfold spec_evaluate in Hlim, Hverdict.
    rewrite (bool_decide_eq_false_2 (premium info ≠ 0)) in Hlim, Hverdict
      by (rewrite Hprem; lia).
    rewrite (bool_decide_eq_false_2 (now > reset_time info)) in Hlim, Hverdict
      by lia.
    rewrite (bool_decide_eq_true_2 (used_count info >= 5)) in Hlim, Hverdict
      by lia.
    simpl in Hlim, Hverdict. split; [|done].
    by rewrite (get_limit_info_insert _ _ _ _ Hlim).
  - intros user_id updates. apply run_updates_premium.
Qed.

End Limits.

(** ** Claims on moderation *)

Section Moderation.

Import database.

Variable ADMIN_ID : Z.

Lemma last_n_app {A} (n : nat) (l k : list A) :
  last_n n (last_n n l ++ k) = last_n n (l ++ k).
Proof.
  unfold last_n.
  replace (drop (length l - n) l ++ k) with (drop (length l - n) (l ++ k))
    by (rewrite drop_app_le; [done|lia]).
  rewrite drop_drop. f_equal. rewrite length_drop, !length_app. lia.
Qed.

Lemma push_window (old : list (Z * Z)) (r : Z * Z) :
  (if bool_decide (Z.of_nat (length (old ++ [r])) > 5)
   then slice_from (- 5) (old ++ [r]) else old ++ [r])
  = last_n 5 (old ++ [r]).
Proof.
  unfold last_n, slice_from. case_bool_decide as Hlen.
  - rewrite bool_decide_eq_true_2 by lia. f_equal. lia.
  - replace (length (old ++ [r]) - 5)%nat with 0%nat by lia. done.
Qed.

(** A text of an unblocked user who has a partner is recorded in the
    sender's window; the database is not touched. *)
Lemma handle_text_state (message : tg.Message) (delivered : bool) (st : Bot) :
  let uid := tg.id (tg.from_user message) in
  is_blocked uid (db st) = false →
  is_Some (as_truthy (get_partner uid (db st))) →
  state_after (handle_text message delivered) st
  = with_last_messages st
      (<[uid := last_n 5 (default [] (last_messages st !! uid)
                          ++ [ref_of message])]> (last_messages st)).
Proof.
  intros uid Hblocked [p Hp]. unfold handle_text. unfold_steps. cbn. fold uid.
  rewrite Hblocked. cbn. rewrite Hp. cbn.
  rewrite push_window. destruct st as [d lm lat]. by destruct delivered.
Qed.

(** The window of [x] after [x] has sent the texts [sends], one after the
    other. *)
Lemma texts_window (x : Z) (send : tg.Message * bool)
    (sends : list (tg.Message * bool)) (st : Bot) :
  let st' := run_updates ADMIN_ID ((λ s, Text s.1 s.2) <$> (send :: sends)) st in
  Forall (λ s, tg.id (tg.from_user s.1) = x) (send :: sends) →
  is_blocked x (db st) = false →
  is_Some (as_truthy (get_partner x (db st))) →
  db st' = db st
  ∧ last_messages st' !! x
    = Some (last_n 5 (default [] (last_messages st !! x)
                      ++ (ref_of <$> (send :: sends).*1))).
Proof.
  revert send st. induction sends as [|next sends IH];
    intros send st st' Hfrom Hblocked Hpartner; subst st';
    apply Forall_cons in Hfrom as [Hx Hfrom].
  - simpl. unfold step. simpl. rewrite handle_text_state; rewrite ?Hx; try done.
    simpl. by rewrite lookup_insert_eq.
  - change (run_updates ADMIN_ID ((λ s, Text s.1 s.2) <$> send :: next :: sends) st)
      with (run_updates ADMIN_ID ((λ s, Text s.1 s.2) <$> next :: sends)
              (step ADMIN_ID (Text send.1 send.2) st)).
    assert (step ADMIN_ID (Text send.1 send.2) st
            = with_last_messages st
                (<[x := last_n 5 (default [] (last_messages st !! x)
                                  ++ [ref_of send.1])]> (last_messages st)))
      as Hstep.
    { unfold step. simpl. rewrite handle_text_state; rewrite ?Hx; done. }
    rewrite Hstep.
    destruct (IH next (with_last_messages st
                (<[x := last_n 5 (default [] (last_messages st !! x)
                                  ++ [ref_of send.1])]> (last_messages st))))
      as [Hdb Hwin]; try done.
    split; [done|]. rewrite Hwin. simpl. rewrite lookup_insert_eq. simpl.
    f_equal. rewrite last_n_app. by rewrite <- app_assoc.
Qed.

(** C7. After seven texts sent by [x] (unblocked, with a partner), the
    window of [x] holds the references of the last five, oldest first; a
    report that names [x] then copies exactly these five to the moderator
    in that order, between the header and the end notice.  A report that
    names a user whose window is empty sends the "No messages found"
    notice and copies nothing. *)
Theorem report_forwards_recent_window (x : Z) (sends : list (tg.Message * bool))
    (report : tg.Message) (now : Z) (st : Bot) :
  let st' := run_updates ADMIN_ID ((λ s, Text s.1 s.2) <$> sends) st in
  let window := ref_of <$> drop 2 (sends.*1) in
  let reporter := tg.id (tg.from_user report) in
  (length sends = 7%nat →
   Forall (λ s, tg.id (tg.from_user s.1) = x) sends →
   is_blocked x (db st) = false →
   is_Some (as_truthy (get_partner x (db st))) →
   as_truthy (get_partner reporter (db st)) = Some x →
   last_messages st' !! x = Some window
   ∧ length window = 5%nat
   ∧ calls_of (cmd_report ADMIN_ID report now) st'
     = [Db (Get_partner reporter); Db (Add_report reporter x);
        Answer msg.report_sent;
        Send_message ADMIN_ID (msg.report_header reporter x)]
       ++ ((λ r, Copy_message ADMIN_ID r.1 r.2) <$> window)
       ++ [Send_message ADMIN_ID (msg.report_end reporter x)])
  ∧ (as_truthy (get_partner reporter (db st)) = Some x →
     default [] (last_messages st !! x) = [] →
     calls_of (cmd_report ADMIN_ID report now) st
     = [Db (Get_partner reporter); Db (Add_report reporter x);
        Answer msg.report_sent;
        Send_message ADMIN_ID (msg.report_no_messages reporter x)]).
Proof.
  intros st' window reporter. split.
  - intros Hlen Hfrom Hblocked Hpartner Hnamed.
    destruct sends as [|s1 [|s2 [|s3 [|s4 [|s5 [|s6 [|s7 [|s8 sends]]]]]]]];
      try discriminate Hlen.
    destruct (texts_window x s1 [s2; s3; s4; s5; s6; s7] st Hfrom Hblocked
                Hpartner) as [Hdb Hwin].
    fold st' in Hdb, Hwin.
    assert (last_messages st' !! x = Some window) as Hwindow.
    { rewrite Hwin. f_equal. unfold last_n. rewrite drop_app_ge.
      - rewrite length_app. simpl.
        by replace (length (default [] (last_messages st !! x)) + 7 - 5
                    - length (default [] (last_messages st !! x)))%nat
          with 2%nat by lia.
      - rewrite length_app. simpl. lia. }
    split; [done|]. split; [done|]. clearbody st'.
    unfold cmd_report. unfold_steps. cbn. fold reporter.
    rewrite Hdb, Hnamed. cbn. rewrite Hwindow. cbn.
    by rewrite for_each_transport.
  - intros Hnamed Hempty.
    unfold cmd_report. unfold_steps. cbn. fold reporter.
    rewrite Hnamed. cbn. by rewrite Hempty.
Qed.

Lemma filter_keeps_all {A} (P : A → Prop) `{∀ x, Decision (P x)} (l : list A) :
  (∀ x, x ∈ l → P x) → filter P l = l.
Proof.
  induction l as [|a l IH]; intros Hall; [done|].
  rewrite filter_cons_True by (apply Hall; set_solver).
  f_equal. apply IH. intros x Hx. apply Hall. set_solver.
Qed.

(** A blocked user is in no chat and not in the queue. *)
Lemma blocked_user_idle (uid : Z) (st : Bot) :
  reachable ADMIN_ID st → is_blocked uid (db st) = true →
  get_partner uid (db st) = None
  ∧ remove_from_queue uid (db st) = db st.
Proof.
  intros [_ Hidle]%reachable_inv Hblocked.
  apply bool_decide_eq_true in Hblocked.
  destruct (Hidle uid Hblocked) as [Hfree Hnotq].
  split; [by apply get_partner_None|].
  unfold remove_from_queue.
  replace (filter (λ r, r ≠ uid) (queue (db st))) with (queue (db st)).
  - by destruct (db st).
  - symmetry. apply filter_keeps_all. intros r Hr ->. done.
Qed.

(** C6, amended. For a blocked user in a reachable state:
    [/start] and a match request that passes the rate limiter first write
    the user's row, then consult the block set and answer that the user is
    blocked; a rate-limited match request only gets the "wait" answer; a
    text consults the block set first and is dropped without an answer;
    [/stop] and [/report] do not consult the block set, find no chat and
    answer that the user is not in a chat.  The only state changes are the
    user row (start, match request) and the rate limiter's stamp (match
    request): queue, chats, reports, blocks, limits and the message
    windows stay as they were. *)
Theorem blocked_user_is_turned_away (message : tg.Message) (st : Bot) :
  let user := tg.from_user message in
  let uid := tg.id user in
  let row_written :=
    Db (Add_user uid (tg.username user) (tg.first_name user)
                 (tg.last_name user)) in
  reachable ADMIN_ID st →
  is_blocked uid (db st) = true →
  cmd_start message st
  = (Some tt,
     with_db st (add_user uid (tg.username user) (tg.first_name user)
                          (tg.last_name user) (db st)),
     [row_written; Db (Is_blocked uid); Answer msg.start_blocked])
  ∧ (∀ clock now member,
       cmd_next message clock now member st
       = if (is_rate_limited uid "next" 5 clock st).1.1 is Some false
         then (Some tt, past_gates message clock st,
               [row_written; Db (Is_blocked uid); Answer msg.next_blocked])
         else (Some tt, st, [Answer msg.wait]))
  ∧ cmd_stop message st
    = (Some tt, st, [Db (Get_partner uid); Db (Remove_from_queue uid);
                     Answer msg.not_in_chat_stop])
  ∧ (∀ now, cmd_report ADMIN_ID message now st
            = (Some tt, st, [Db (Get_partner uid);
                             Answer msg.nothing_to_report]))
  ∧ (∀ delivered, handle_text message delivered st
                  = (Some tt, st, [Db (Is_blocked uid)])).
Proof.
  intros user uid row_written Hreach Hblocked.
  destruct (blocked_user_idle uid st Hreach Hblocked) as [Hpartner Hqueue].
  subst row_written uid user.
  split; [|split; [|split; [|split]]].
  - unfold cmd_start. unfold_steps. cbn.
    change (is_blocked ?u (add_user _ _ _ _ _)) with (is_blocked u (db st)).
    by rewrite Hblocked.
  - intros clock now member. unfold cmd_next. unfold_steps. cbn.
    case_bool_decide; cbn; [done|].
    change (is_blocked ?u (add_user _ _ _ _ _)) with (is_blocked u (db st)).
    by rewrite Hblocked.
  - unfold cmd_stop. unfold_steps. cbn. rewrite Hpartner. cbn.
    rewrite Hqueue. by destruct st.
  - intros now. unfold cmd_report. unfold_steps. cbn. by rewrite Hpartner.
  - intros delivered. unfold handle_text. unfold_steps. cbn.
    by rewrite Hblocked.
Qed.

End Moderation.

(** ** The claims on concrete runs *)

Lemma sender_nonzero (uid message_id : Z) (u : Update) :
  message_of u = message_from uid message_id → uid ≠ 0 → sender u ≠ 0.
Proof. unfold sender. by intros ->. Qed.

Lemma paired_state_reachable : reachable moderator paired_state.
Proof.
  apply reachable_step; [apply reachable_step; [apply reachable_init|]|];
    by eapply sender_nonzero.
Qed.

Lemma waiting_state_reachable : reachable moderator waiting_state.
Proof.
  apply reachable_step; [apply paired_state_reachable|].
  by eapply sender_nonzero.
Qed.

Lemma blocked_state_reachable : reachable moderator blocked_state.
Proof.
  apply reachable_step; [apply reachable_init|]. by eapply sender_nonzero.
Qed.

(** C2 (the code departs from the claim). Users 3, 1 and 2 arrive in this
    order.  For a request from user 4 the query returns user 1, the least
    id, and not user 3, who has waited longest; [cmd_next] then takes
    user 1 out of the queue and pairs user 4 with user 1. *)
Theorem get_first_in_queue_least_id_not_oldest :
  database.queue (enqueue_all [3; 1; 2]) = [3; 1; 2]
  ∧ database.get_first_in_queue (Some 4) (enqueue_all [3; 1; 2]) = Some 1
  ∧ database.chats
      (db (state_after (cmd_next (message_from 4 1) 100 100 false)
             three_waiting)) = [(4, 1)]
  ∧ database.queue
      (db (state_after (cmd_next (message_from 4 1) 100 100 false)
             three_waiting)) = [3; 2].
Proof. repeat split; by vm_compute. Qed.

Lemma one_pairing_and_not_queued_witness :
  (length (pairings_of 1 (database.chats (db paired_state))) ≤ 1)%nat
  ∧ (1 ∉ database.queue (db paired_state))
  ∧ (4 ∉ database.queue
           (db (state_after (cmd_next (message_from 4 1) 100 100 false)
                  waiting_state)))
  ∧ (3 ∉ database.queue
           (db (state_after (cmd_next (message_from 4 1) 100 100 false)
                  waiting_state))).
Proof.
  destruct (one_pairing_and_not_queued moderator paired_state
              paired_state_reachable) as [Hone _].
  destruct (Hone 1) as [Hlen Hnotq].
  split; [exact Hlen|]. split; [apply Hnotq; by vm_compute|].
  destruct (one_pairing_and_not_queued moderator waiting_state
              waiting_state_reachable) as [_ Hnext].
  refine (Hnext (message_from 4 1) 100%Q 100 false 3 _ _).
  - by vm_compute.
  - vm_compute. repeat constructor.
Defined.

Lemma limit_reached_is_written_back_witness :
  calls_of (cmd_next (message_from 7 1) 100 900 false) (limited_state 5 1000 0)
  = gate_calls (message_from 7 1)
    ++ [Get_chat_member CHANNEL 7; Answer msg.limit_reached;
        Db (Update_limit 7 5 1000 0)]
  ∧ database.limits
      (db (state_after (cmd_next (message_from 7 1) 100 900 false)
             (limited_state 5 1000 0))) !! 7
    = Some {| database.used_count := 5; database.reset_time := 1000;
              database.premium := 0 |}.
Proof.
  destruct (limit_reached_is_written_back (message_from 7 1) 100 900 1000
              (limited_state 5 1000 0)) as (Hcalls & _ & Hrow & _).
  - by vm_compute.
  - by vm_compute.
  - by vm_compute.
  - lia.
  - split; [exact Hcalls|exact Hrow].
Defined.

Lemma limit_window_rolls_over_witness :
  database.get_limit_info 7
    (db (state_after (cmd_next (message_from 7 1) 100 1001 false)
           (limited_state 5 1000 0)))
  = {| database.used_count := 1; database.reset_time := 4601;
       database.premium := 0 |}
  ∧ database.get_limit_info 7
      (db (state_after (cmd_next (message_from 7 1) 100 1001 false) init_bot))
    = {| database.used_count := 1; database.reset_time := 4601;
         database.premium := 0 |}.
Proof.
  split.
  - refine (proj1 (proj2 (limit_window_rolls_over (message_from 7 1) 100 1001
                            1000 false (limited_state 5 1000 0) _ _ _ _))).
    + by vm_compute.
    + by vm_compute.
    + left. by vm_compute.
    + lia.
  - refine (proj1 (proj2 (limit_window_rolls_over (message_from 7 1) 100 1001
                            0 false init_bot _ _ _ _))).
    + by vm_compute.
    + by vm_compute.
    + right. split; [by vm_compute|done].
    + lia.
Defined.

Lemma premium_lifts_the_limit_witness :
  (Answer msg.limit_reached
   ∉ calls_of (cmd_next (message_from 7 1) 100 900 false)
       (limited_state 9 1000 1))
  ∧ database.get_limit_info 7
      (db (state_after (cmd_next (message_from 7 1) 100 900 true)
             (limited_state 5 1000 0)))
    = {| database.used_count := 5; database.reset_time := 1000;
         database.premium := 1 |}
  ∧ database.premium
      (database.get_limit_info 7
         (db (run_updates moderator
                [Next (message_from 7 1) 200 5000 false;
                 Stop (message_from 7 2)]
                (limited_state 9 1000 1)))) ≠ 0.
Proof.
  split; [|split].
  - refine (proj1 (proj1 (premium_lifts_the_limit moderator (message_from 7 1)
                            100 900 false (limited_state 9 1000 1)) _)).
    by vm_compute.
  - refine (proj1 (proj1 (proj2 (premium_lifts_the_limit moderator
                                   (message_from 7 1) 100 900 true
                                   (limited_state 5 1000 0)))
                     _ _ _ _ _ _)).
    + by vm_compute.
    + vm_compute. discriminate.
    + vm_compute. discriminate.
    + done.
    + by vm_compute.
    + by vm_compute.
  - refine (proj2 (proj2 (premium_lifts_the_limit moderator (message_from 7 1)
                            100 900 false (limited_state 9 1000 1))) 7 _ _).
    by vm_compute.
Defined.

Lemma blocked_user_is_turned_away_witness :
  cmd_stop (message_from 7 1) blocked_state
  = (Some tt, blocked_state,
     [Db (Get_partner 7); Db (Remove_from_queue 7);
      Answer msg.not_in_chat_stop])
  ∧ handle_text (message_from 7 1) true blocked_state
    = (Some tt, blocked_state, [Db (Is_blocked 7)]).
Proof.
  destruct (blocked_user_is_turned_away moderator (message_from 7 1)
              blocked_state blocked_state_reachable)
    as (_ & _ & Hstop & _ & Htext).
  - by vm_compute.
  - split; [exact Hstop|exact (Htext true)].
Defined.

(** C6 as stated fails for the blocked user 7: [/start] writes the user's
    row before it looks at the block set, [/stop] and [/report] never look
    at it and answer as for any user without a chat, and a text is
    dropped without an answer. *)
Lemma blocked_guard_counterexample :
  reachable moderator blocked_state
  ∧ database.is_blocked 7 (db blocked_state) = true
  ∧ ¬ guarded_as_stated moderator (Start (message_from 7 1)) blocked_state
  ∧ ¬ guarded_as_stated moderator (Next (message_from 7 1) 100 100 false)
        blocked_state
  ∧ ¬ guarded_as_stated moderator (Stop (message_from 7 1)) blocked_state
  ∧ ¬ guarded_as_stated moderator (Report (message_from 7 1) 100)
        blocked_state
  ∧ ¬ guarded_as_stated moderator (Text (message_from 7 1) true)
        blocked_state.
Proof.
  split; [apply blocked_state_reachable|]. split; [by vm_compute|].
  repeat split; intros ([rest Hfirst] & Htold & Hsame).
  - vm_compute in Hfirst. discriminate.
  - vm_compute in Hfirst. discriminate.
  - vm_compute in Hfirst. discriminate.
  - vm_compute in Hfirst. discriminate.
  - vm_compute in Htold. destruct Htold as [Htold|Htold];
      apply elem_of_cons in Htold as [Htold|Htold]; try discriminate;
      by apply not_elem_of_nil in Htold.
Defined.

(** [/start] of the blocked user 7 changes the [users] table. *)
Lemma blocked_start_writes_user_row :
  database.users (db blocked_state) !! 7 = None
  ∧ database.users
      (db (step moderator (Start (message_from 7 1)) blocked_state)) !! 7
    = Some {| database.username := None; database.first_name := Some "user";
              database.last_name := None |}.
Proof. split; by vm_compute. Qed.

Lemma report_forwards_recent_window_witness :
  last_messages
    (run_updates moderator ((λ s, Text s.1 s.2) <$> seven_texts) paired_state)
  !! 1 = Some [(1, 3); (1, 4); (1, 5); (1, 6); (1, 7)]
  ∧ calls_of (cmd_report moderator (message_from 2 9) 500)
      (run_updates moderator ((λ s, Text s.1 s.2) <$> seven_texts) paired_state)
    = [Db (Get_partner 2); Db (Add_report 2 1); Answer msg.report_sent;
       Send_message moderator (msg.report_header 2 1);
       Copy_message moderator 1 3; Copy_message moderator 1 4;
       Copy_message moderator 1 5; Copy_message moderator 1 6;
       Copy_message moderator 1 7;
       Send_message moderator (msg.report_end 2 1)]
  ∧ calls_of (cmd_report moderator (message_from 2 9) 500) paired_state
    = [Db (Get_partner 2); Db (Add_report 2 1); Answer msg.report_sent;
       Send_message moderator (msg.report_no_messages 2 1)].
Proof.
  destruct (report_forwards_recent_window moderator 1 seven_texts
              (message_from 2 9) 500 paired_state) as [Hsent Hempty].
  destruct Hsent as (Hwindow & _ & Hcalls).
  - done.
  - repeat constructor.
  - by vm_compute.
  - vm_compute. by eexists.
  - by vm_compute.
  - split; [exact Hwindow|]. split; [exact Hcalls|].
    apply Hempty; by vm_compute.
Defined.

Lemma report_without_partner_witness :
  cmd_report moderator (message_from 1 1) 500 init_bot
  = (Some tt, init_bot, [Db (Get_partner 1); Answer msg.nothing_to_report]).
Proof.
  refine (proj1 (report_without_partner moderator (message_from 1 1) 500
                   init_bot _)).
  done.
Defined.

Lemma add_to_queue_already_queued_witness :
  database.add_to_queue 1 (enqueue_all [3; 1; 2]) = enqueue_all [3; 1; 2].
Proof.
  refine (proj1 (add_to_queue_already_queued 1 (enqueue_all [3; 1; 2]) _)).
  vm_compute. repeat constructor.
Defined.

Lemma get_first_in_queue_zero_is_not_skipped_witness :
  database.get_first_in_queue (Some 0) (enqueue_all [0; 5; 2]) = Some 0
  ∧ database.get_first_in_queue (Some 2) (enqueue_all [0; 5; 2]) = Some 0.
Proof.
  split.
  - refine (proj1 (get_first_in_queue_zero_is_not_skipped
                     (enqueue_all [0; 5; 2])) [5; 2] _ _);
      [by vm_compute|].
    intros x Hx. repeat (apply elem_of_cons in Hx as [->|Hx]; [lia|]).
    by apply not_elem_of_nil in Hx.
  - refine (proj2 (proj1 (proj2 (proj2 (proj2
              (get_first_in_queue_zero_is_not_skipped
                 (enqueue_all [0; 5; 2]))))
              2 0 _)) _); [lia|].
    split; [vm_compute; repeat constructor|]. split; [lia|].
    intros x Hx _. vm_compute in Hx.
    repeat (apply elem_of_cons in Hx as [->|Hx]; [lia|]).
    by apply not_elem_of_nil in Hx.
Defined.

(** C10 as stated fails on the arrivals [0; -1]: user 0 is the oldest
    entry and the excluded id is 0, yet the query returns -1, the least
    id. *)
Lemma get_first_in_queue_zero_counterexample :
  database.queue (enqueue_all [0; -1]) = [0; -1]
  ∧ database.get_first_in_queue (Some 0) (enqueue_all [0; -1]) = Some (-1)
  ∧ database.get_first_in_queue (Some 0) (enqueue_all [0; -1]) ≠ Some 0
  ∧ ¬ (∀ d rest, database.queue d = 0 :: rest →
                 database.get_first_in_queue (Some 0) d = Some 0).
Proof.
  split; [by vm_compute|]. split; [by vm_compute|]. split; [by vm_compute|].
  intros Hstated.
  specialize (Hstated (enqueue_all [0; -1]) [-1] eq_refl).
  vm_compute in Hstated. discriminate.
Defined.

(** * Further properties of the handlers *)

(** ** How [cmd_next] and [find_partner] run *)

Section Runs.

Import database.

Variable ADMIN_ID : Z.

(** [find_partner] only touches [queue] and [chats]. *)
Lemma find_partner_frame (uid : Z) (st : Bot) :
  let st' := state_after (find_partner uid) st in
  last_messages st' = last_messages st
  ∧ last_action_time st' = last_action_time st
  ∧ users (db st') = users (db st)
  ∧ reports (db st') = reports (db st)
  ∧ blocks (db st') = blocks (db st)
  ∧ limits (db st') = limits (db st).
Proof.
  unfold find_partner. unfold_steps. cbn.
  destruct (as_truthy (get_partner uid (db st))) as [p|]; cbn;
    (destruct (as_truthy (get_first_in_queue (Some uid) _)) as [c|]; cbn;
     [unfold add_chat; case_decide; cbn; done
     |unfold add_to_queue; case_decide; cbn; done]).
Qed.

(** The four ways in which [cmd_next] ends: rate limited, blocked, limit
    reached, or with the search for a partner. *)
Lemma cmd_next_cases (message : tg.Message) (clock : Q) (now : Z)
    (member : bool) (st : Bot) :
  let uid := tg.id (tg.from_user message) in
  let pg := past_gates message clock st in
  ((is_rate_limited uid "next" 5 clock st).1.1 = Some true
   ∧ cmd_next message clock now member st = (Some tt, st, [Answer msg.wait]))
  ∨ ((is_rate_limited uid "next" 5 clock st).1.1 = Some false
     ∧ ((is_blocked uid (db st) = true
         ∧ ∃ log, cmd_next message clock now member st = (Some tt, pg, log))
        ∨ (is_blocked uid (db st) = false
           ∧ ∃ used reset flag log,
               cmd_next message clock now member st
               = (Some tt,
                  with_db pg (update_limit uid used reset flag (db pg)), log)
               ∧ Answer msg.limit_reached ∈ log)
        ∨ (is_blocked uid (db st) = false
           ∧ ∃ used reset flag pre,
               cmd_next message clock now member st
               = (let '(r, st3, log) :=
                    find_partner uid
                      (with_db pg (update_limit uid used reset flag (db pg))) in
                  (r, st3, pre ++ log))))).
Proof.
  intros uid pg. subst pg. unfold past_gates, cmd_next, check_limit.
  unfold_steps. cbn. fold uid.
  case_bool_decide; cbn; [by left|right; split; [done|]].
  change (is_blocked uid (add_user _ _ _ _ _)) with (is_blocked uid (db st)).
  destruct (is_blocked uid (db st)) eqn:Hblocked; cbn.
  { left. split; [done|]. by eexists. }
  right.
  change (get_limit_info uid (add_user _ _ _ _ _))
    with (get_limit_info uid (db st)).
  set (info := get_limit_info uid (db st)).
  destruct (bool_decide (now > reset_time info)); cbn;
    (destruct (truthy (premium info)) eqn:Hprem; cbn; rewrite ?Hprem; cbn;
     [|match goal with
       | |- context [bool_decide (?u >= LIMIT)] =>
           destruct (bool_decide (u >= LIMIT)); cbn;
           [destruct member; cbn; rewrite ?truthy_1; cbn|rewrite ?Hprem; cbn]
       end]).
  all: try (left; split; [done|]; do 4 eexists; split; [reflexivity|];
            rewrite !elem_of_cons; by auto 10).
  all: right; split; [done|];
    match goal with
    | |- context [find_partner _ (with_db _ (update_limit _ ?a ?b ?c _))] =>
        exists a, b, c; cbn
    end;
    match goal with
    | |- context [find_partner ?u ?s] =>
        destruct (find_partner u s) as [[r st3] log] eqn:Hrun; cbn
    end;
    match goal with
    | |- ∃ pre, (_, _, ?l) = _ =>
        let p := list_before l log in exists p; reflexivity
    end.
Qed.

(** [cmd_next] leaves the message windows, the reports and the block set
    alone, and writes at most the sender's row of [users]. *)
Lemma cmd_next_frame (message : tg.Message) (clock : Q) (now : Z)
    (member : bool) (st : Bot) :
  let user := tg.from_user message in
  let st' := state_after (cmd_next message clock now member) st in
  last_messages st' = last_messages st
  ∧ reports (db st') = reports (db st)
  ∧ blocks (db st') = blocks (db st)
  ∧ (users (db st') = users (db st)
     ∨ users (db st')
       = users (add_user (tg.id user) (tg.username user) (tg.first_name user)
                         (tg.last_name user) (db st))).
Proof.
  intros user st'. subst st'. unfold state_after.
  destruct (cmd_next_cases message clock now member st)
    as [[_ Hrun]|[_ [[_ [log Hrun]]|[[_ (a & b & c & log & Hrun & _)]
                                    |[_ (a & b & c & pre & Hrun)]]]]];
    rewrite Hrun; cbn; auto.
  pose proof (find_partner_frame (tg.id (tg.from_user message))
                (with_db (past_gates message clock st)
                   (update_limit (tg.id (tg.from_user message)) a b c
                      (db (past_gates message clock st))))) as Hframe.
  unfold state_after in Hframe.
  destruct (find_partner _ _) as [[r st3] log]. cbn in *.
  destruct Hframe as (-> & _ & -> & -> & -> & _). auto.
Qed.

End Runs.

(** ** What the handlers never do *)

Section Never.

Import database.

Variable ADMIN_ID : Z.

Lemma step_keeps_reports_and_users (u : Update) (st : Bot) :
  reports (db st) `prefix_of` reports (db (step ADMIN_ID u st))
  ∧ dom (users (db st)) ⊆ dom (users (db (step ADMIN_ID u st))).
Proof.
  unfold step. destruct u; simpl.
  - unfold cmd_start. unfold_steps. cbn.
    destruct (is_blocked _ _); cbn; (split; [done|]);
      rewrite dom_insert_L; set_solver.
  - done.
  - destruct (cmd_next_frame message clock now member st)
      as (_ & -> & _ & [-> | ->]); (split; [done|]); [done|].
    simpl. rewrite dom_insert_L. set_solver.
  - unfold cmd_stop. unfold_steps. cbn.
    by destruct (as_truthy (get_partner _ _)).
  - unfold cmd_report. unfold_steps. cbn.
    destruct (as_truthy (get_partner _ _)) as [p|]; cbn; [|done].
    destruct (default [] _) as [|m msgs]; cbn;
      rewrite ?for_each_transport; cbn;
      (split; [by apply prefix_app_r|done]).
  - unfold cmd_stats. unfold_steps. by case_bool_decide.
  - unfold cmd_block. unfold_steps. case_bool_decide; cbn; [done|].
    destruct target as [| |user_id]; cbn; [done|done|].
    unfold database.block_user.
    destruct (database.fits_sqlite_integer user_id); cbn; [|done].
    by destruct (as_truthy (get_partner user_id _)).
  - unfold cmd_unblock. unfold_steps. case_bool_decide; cbn; [done|].
    destruct target as [| |user_id]; cbn; [done|done|].
    unfold database.unblock_user.
    by destruct (database.fits_sqlite_integer user_id).
  - unfold handle_text. unfold_steps. cbn.
    destruct (is_blocked _ _); cbn; [done|].
    destruct (as_truthy (get_partner _ _)) as [p|]; cbn; [|done].
    by destruct delivered.
  - done.
Qed.

(** Rows of [reports] and [users] are never deleted: whatever updates
    arrive, the reports made so far stay, unchanged and in order, at the
    head of the table, and every known user id stays known. *)
Theorem reports_and_users_are_kept (updates : list Update) (st : Bot) :
  reports (db st) `prefix_of` reports (db (run_updates ADMIN_ID updates st))
  ∧ dom (users (db st))
    ⊆ dom (users (db (run_updates ADMIN_ID updates st))).
Proof.
  revert st. induction updates as [|u updates IH]; intros st; [done|].
  simpl. destruct (IH (step ADMIN_ID u st)) as [Hr Hu].
  destruct (step_keeps_reports_and_users u st) as [Hr0 Hu0].
  split; [by etrans|set_solver].
Qed.

Lemma step_keeps_blocks (u : Update) (st : Bot) :
  sender u ≠ ADMIN_ID → blocks (db (step ADMIN_ID u st)) = blocks (db st).
Proof.
  intros Hsender. unfold step. destruct u; simpl.
  - unfold cmd_start. unfold_steps. cbn. by destruct (is_blocked _ _).
  - done.
  - by destruct (cmd_next_frame message clock now member st) as (_ & _ & -> & _).
  - unfold cmd_stop. unfold_steps. cbn.
    by destruct (as_truthy (get_partner _ _)).
  - unfold cmd_report. unfold_steps. cbn.
    destruct (as_truthy (get_partner _ _)) as [p|]; cbn; [|done].
    destruct (default [] _) as [|m msgs]; cbn;
      rewrite ?for_each_transport; done.
  - unfold cmd_stats. unfold_steps. by case_bool_decide.
  - unfold cmd_block. unfold_steps. unfold sender in Hsender. simpl in Hsender.
    by rewrite bool_decide_eq_true_2.
  - unfold cmd_unblock. unfold_steps. unfold sender in Hsender.
    simpl in Hsender. by rewrite bool_decide_eq_true_2.
  - unfold handle_text. unfold_steps. cbn.
    destruct (is_blocked _ _); cbn; [done|].
    destruct (as_truthy (get_partner _ _)) as [p|]; cbn; [|done].
    by destruct delivered.
  - done.
Qed.

(** Only the moderator changes the block set: updates sent by anyone else
    leave it as it is, whatever they are ([/block] and [/unblock]
    included). *)
Theorem only_the_moderator_changes_blocks (updates : list Update) (st : Bot) :
  Forall (λ u, sender u ≠ ADMIN_ID) updates →
  blocks (db (run_updates ADMIN_ID updates st)) = blocks (db st).
Proof.
  revert st. induction updates as [|u updates IH]; intros st Hall; [done|].
  apply Forall_cons in Hall as [Hu Hall]. simpl.
  rewrite IH by done. by apply step_keeps_blocks.
Qed.

(** In a state that satisfies the invariant the search for a partner
    never violates the primary key of [chats]: its calls hold no
    exception. *)
Lemma find_partner_no_raise (uid : Z) (st : Bot) (exn : string) :
  bot_inv st → uid ≠ 0 → Raise exn ∉ calls_of (find_partner uid) st.
Proof.
  intros [Hinv _] Hu. unfold find_partner. unfold_steps. cbn.
  assert (∀ d c, uid ∉ participants (chats d) →
                 add_chat uid c (remove_from_queue c d) ≠ None) as Hadd.
  { intros d c Hfree. unfold add_chat. case_decide as Hin; [|done].
    exfalso. apply Hfree, elem_of_participants. eexists. split; [exact Hin|].
    by left. }
  destruct (as_truthy (get_partner uid (db st))) as [p|] eqn:Hp; cbn;
    (destruct (as_truthy (get_first_in_queue (Some uid) _)) as [c|]; cbn;
     [|no_raise]).
  - destruct (add_chat uid c _) eqn:Hrow; cbn; [no_raise|].
    exfalso. revert Hrow. apply Hadd.
    apply remove_chat_by_users_leaves; [apply Hinv|by apply partner_truthy].
  - destruct (add_chat uid c _) eqn:Hrow; cbn; [no_raise|].
    exfalso. revert Hrow. apply Hadd. by apply partner_falsy.
Qed.

(** Nor do the calls of [cmd_next]. *)
Lemma cmd_next_no_raise (message : tg.Message) (clock : Q) (now : Z)
    (member : bool) (st : Bot) (exn : string) :
  bot_inv st → tg.id (tg.from_user message) ≠ 0 →
  Raise exn ∉ calls_of (cmd_next message clock now member) st.
Proof.
  intros Hinv Hu. set (uid := tg.id (tg.from_user message)) in *.
  unfold calls_of, cmd_next, check_limit. unfold_steps. cbn. fold uid.
  case_bool_decide; cbn; [no_raise|].
  change (is_blocked uid (add_user _ _ _ _ _)) with (is_blocked uid (db st)).
  destruct (is_blocked uid (db st)) eqn:Hblocked; cbn; [no_raise|].
  change (get_limit_info uid (add_user _ _ _ _ _))
    with (get_limit_info uid (db st)).
  set (info := get_limit_info uid (db st)).
  destruct (bool_decide (now > reset_time info)); cbn;
    (destruct (truthy (premium info)) eqn:Hprem; cbn; rewrite ?Hprem; cbn;
     [|match goal with
       | |- context [bool_decide (?u >= LIMIT)] =>
           destruct (bool_decide (u >= LIMIT)); cbn;
           [destruct member; cbn; rewrite ?truthy_1; cbn|rewrite ?Hprem; cbn]
       end]).
  all: try no_raise.
  all: match goal with
       | |- context [find_partner ?u ?s] =>
           pose proof (find_partner_no_raise u s exn) as Hfp;
           unfold calls_of in Hfp;
           destruct (find_partner u s) as [[r st3] log] eqn:Hrun; cbn in *
       end.
  all: intros Hin;
    repeat (apply elem_of_cons in Hin as [Hin|Hin]; [discriminate|]);
    revert Hin; apply Hfp; [|done];
    revert Hinv; by apply bot_inv_same_tables.
Qed.

(** The exceptions of the database.  In every reachable state, and for an
    update whose sender id and clock reading fit in 64 bits, the only
    statement that [sqlite3] refuses while the update is handled is the
    first one of [/block] or [/unblock], sent by the moderator with an id
    outside the signed 64-bit range: it raises [OverflowError], the
    command stops there and the state is unchanged.  In particular the
    [INSERT] of [add_chat] in [cmd_next] never meets an existing row. *)
Theorem database_raises_only_on_overflow (u : Update) (st : Bot) :
  reachable ADMIN_ID st → sender u ≠ 0 →
  Forall (λ v, fits_sqlite_integer v = true) (environment_ints u) →
  (∀ exn, Raise exn ∈ calls_of (handle ADMIN_ID u) st →
     exn = "OverflowError" ∧ sender u = ADMIN_ID
     ∧ ∃ v, typed_id u = Some v ∧ fits_sqlite_integer v = false)
  ∧ (∀ v, sender u = ADMIN_ID → typed_id u = Some v →
          fits_sqlite_integer v = false →
          (handle ADMIN_ID u st).1.1 = None
          ∧ state_after (handle ADMIN_ID u) st = st
          ∧ Raise "OverflowError" ∈ calls_of (handle ADMIN_ID u) st).
Proof.
  intros Hinv%reachable_inv Hu _. split.
  - intros exn. destruct u; simpl.
    + unfold cmd_start. unfold_steps. cbn.
      destruct (is_blocked _ _); cbn; intros Hin; exfalso; revert Hin;
        no_raise.
    + intros Hin; exfalso; revert Hin. unfold show_commands. unfold_steps.
      cbn. no_raise.
    + intros Hin. exfalso. revert Hin. by apply cmd_next_no_raise.
    + unfold cmd_stop. unfold_steps. cbn.
      destruct (as_truthy (get_partner _ _)); cbn;
        intros Hin; exfalso; revert Hin; no_raise.
    + unfold cmd_report. unfold_steps. cbn.
      destruct (as_truthy (get_partner _ _)) as [p|]; cbn;
        [|intros Hin; exfalso; revert Hin; no_raise].
      destruct (default [] _) as [|m msgs]; cbn;
        rewrite ?for_each_transport; cbn;
        intros Hin; exfalso;
        repeat (apply elem_of_cons in Hin as [Hin|Hin]; [discriminate|]);
        try (by apply not_elem_of_nil in Hin).
      apply elem_of_app in Hin as [Hin|Hin].
      * apply list_elem_of_fmap in Hin as (x & Hx & _). discriminate.
      * revert Hin. no_raise.
    + unfold cmd_stats. unfold_steps.
      case_bool_decide; cbn; intros Hin; exfalso; revert Hin; no_raise.
    + unfold cmd_block. unfold_steps. unfold sender in *. simpl in *.
      case_bool_decide as Hadmin; cbn;
        [intros Hin; exfalso; revert Hin; no_raise|].
      destruct target as [| |user_id]; cbn;
        [intros Hin; exfalso; revert Hin; no_raise
        |intros Hin; exfalso; revert Hin; no_raise|].
      unfold block_user.
      destruct (fits_sqlite_integer user_id) eqn:Hfits; cbn.
      * destruct (as_truthy (get_partner user_id _)); cbn;
          intros Hin; exfalso; revert Hin; no_raise.
      * intros Hin.
        apply elem_of_cons in Hin as [Hin|Hin]; [discriminate|].
        apply elem_of_cons in Hin as [[= ->]|Hin];
          [|by apply not_elem_of_nil in Hin].
        split; [done|]. split; [done|]. by exists user_id.
    + unfold cmd_unblock. unfold_steps. unfold sender in *. simpl in *.
      case_bool_decide as Hadmin; cbn;
        [intros Hin; exfalso; revert Hin; no_raise|].
      destruct target as [| |user_id]; cbn;
        [intros Hin; exfalso; revert Hin; no_raise
        |intros Hin; exfalso; revert Hin; no_raise|].
      unfold unblock_user.
      destruct (fits_sqlite_integer user_id) eqn:Hfits; cbn.
      * intros Hin; exfalso; revert Hin; no_raise.
      * intros Hin.
        apply elem_of_cons in Hin as [Hin|Hin]; [discriminate|].
        apply elem_of_cons in Hin as [[= ->]|Hin];
          [|by apply not_elem_of_nil in Hin].
        split; [done|]. split; [done|]. by exists user_id.
    + unfold handle_text. unfold_steps. cbn.
      destruct (is_blocked _ _); cbn;
        [intros Hin; exfalso; revert Hin; no_raise|].
      destruct (as_truthy (get_partner _ _)) as [p|]; cbn;
        [|intros Hin; exfalso; revert Hin; no_raise].
      destruct delivered; cbn; intros Hin; exfalso; revert Hin; no_raise.
    + unfold block_media. unfold_steps. cbn.
      intros Hin; exfalso; revert Hin; no_raise.
  - intros v Hadmin Hid Hfits.
    destruct u as [| | | | | |message target|message target| |];
      try discriminate; destruct target as [| |user_id]; try discriminate;
      simpl in Hid; injection Hid as ->; unfold sender in Hadmin;
      simpl in Hadmin; simpl.
    + unfold cmd_block. unfold_steps.
      rewrite bool_decide_eq_false_2 by (intros Hne; by apply Hne). cbn.
      unfold block_user. rewrite Hfits. cbn.
      split; [done|]. split; [done|]. rewrite !elem_of_cons. auto.
    + unfold cmd_unblock. unfold_steps.
      rewrite bool_decide_eq_false_2 by (intros Hne; by apply Hne). cbn.
      unfold unblock_user. rewrite Hfits. cbn.
      split; [done|]. split; [done|]. rewrite !elem_of_cons. auto.
Qed.

End Never.

(** ** Bounds kept by the state *)

Section Bounds.

Import database.

Variable ADMIN_ID : Z.

Lemma last_n_length {A} (n : nat) (l : list A) :
  length (last_n n l) = (length l `min` n)%nat.
Proof. unfold last_n. rewrite length_drop. lia. Qed.

Lemma step_windows (u : Update) (st : Bot) :
  (∀ x l, last_messages st !! x = Some l →
          (1 ≤ length l)%nat ∧ (length l ≤ 5)%nat) →
  ∀ x l, last_messages (step ADMIN_ID u st) !! x = Some l →
         (1 ≤ length l)%nat ∧ (length l ≤ 5)%nat.
Proof.
  intros Hbound. unfold step. destruct u; simpl.
  - unfold cmd_start. unfold_steps. cbn. by destruct (is_blocked _ _).
  - done.
  - by destruct (cmd_next_frame message clock now member st) as (-> & _).
  - unfold cmd_stop. unfold_steps. cbn.
    by destruct (as_truthy (get_partner _ _)).
  - unfold cmd_report. unfold_steps. cbn.
    destruct (as_truthy (get_partner _ _)) as [p|]; cbn; [|done].
    destruct (default [] _) as [|m msgs]; cbn;
      rewrite ?for_each_transport; done.
  - unfold cmd_stats. unfold_steps. by case_bool_decide.
  - unfold cmd_block. unfold_steps. case_bool_decide; cbn; [done|].
    destruct target as [| |user_id]; cbn; [done|done|].
    unfold database.block_user.
    destruct (database.fits_sqlite_integer user_id); cbn; [|done].
    by destruct (as_truthy (get_partner user_id _)).
  - unfold cmd_unblock. unfold_steps. case_bool_decide; cbn; [done|].
    destruct target as [| |user_id]; cbn; [done|done|].
    unfold database.unblock_user.
    by destruct (database.fits_sqlite_integer user_id).
  - destruct (is_blocked (tg.id (tg.from_user message)) (db st)) eqn:Hblocked.
    { unfold handle_text. unfold_steps. cbn. by rewrite Hblocked. }
    destruct (as_truthy (get_partner (tg.id (tg.from_user message)) (db st)))
      as [p|] eqn:Hp.
    2: { unfold handle_text. unfold_steps. cbn. by rewrite Hblocked, Hp. }
    rewrite handle_text_state by (by rewrite ?Hp).
    intros x l. simpl.
    destruct (decide (tg.id (tg.from_user message) = x)) as [->|Hne].
    + rewrite lookup_insert_eq. intros [= <-].
      rewrite last_n_length, length_app. simpl. lia.
    + rewrite lookup_insert_ne by done. apply Hbound.
  - done.
Qed.

(** The window of recent messages of a user, once it exists, always holds
    between one and five references. *)
Theorem windows_hold_one_to_five (updates : list Update) (x : Z)
    (l : list (Z * Z)) :
  last_messages (run_updates ADMIN_ID updates init_bot) !! x = Some l →
  (1 ≤ length l)%nat ∧ (length l ≤ 5)%nat.
Proof.
  assert (∀ st, (∀ x l, last_messages st !! x = Some l →
                        (1 ≤ length l)%nat ∧ (length l ≤ 5)%nat) →
                ∀ x l, last_messages (run_updates ADMIN_ID updates st) !! x
                       = Some l →
                       (1 ≤ length l)%nat ∧ (length l ≤ 5)%nat) as Hrun.
  { induction updates as [|u updates IH]; intros st Hbound; [done|].
    simpl. apply IH. by apply step_windows. }
  apply Hrun. intros y k Hk. simpl in Hk. by rewrite lookup_empty in Hk.
Qed.

Lemma spec_evaluate_in_range (info : LimitRow) (now : Z) (member : bool) :
  in_range info → in_range (spec_evaluate info now member).2.
Proof.
  unfold in_range, spec_evaluate, LIMIT. intros (H0 & H5 & Hflag).
  repeat case_bool_decide; destruct member; simpl; lia.
Qed.

Lemma step_limits_in_range (u : Update) (st : Bot) :
  (∀ x row, limits (db st) !! x = Some row → in_range row) →
  ∀ x row, limits (db (step ADMIN_ID u st)) !! x = Some row → in_range row.
Proof.
  intros Hbound.
  destruct u as [| |message clock now member| | | | | | |];
    try (rewrite step_limits; [done|]; intros; discriminate).
  unfold step. simpl. set (uid := tg.id (tg.from_user message)).
  destruct (is_rate_limited_cases uid "next" 5 clock st) as [Hrate|Hrate];
    [destruct (is_blocked uid (db st)) eqn:Hblocked|].
  2: { destruct (cmd_next_evaluates message clock now member st Hrate Hblocked)
         as [Hlim _].
       rewrite Hlim. fold uid. intros x row.
       destruct (decide (uid = x)) as [->|Hne].
       - rewrite lookup_insert_eq. intros [= <-].
         apply spec_evaluate_in_range. unfold get_limit_info.
         destruct (limits (db st) !! x) as [old|] eqn:Hold; [by eapply Hbound|].
         unfold in_range, LIMIT. simpl. lia.
       - rewrite lookup_insert_ne by done. apply Hbound. }
  all: destruct (cmd_next_stopped_at_gate message clock now member st)
         as [Hlim _]; [auto|]; by rewrite Hlim.
Qed.

(** The quota records stay in range: the count of searches of a user is
    never negative and never above [LIMIT], and the premium flag is 0
    or 1. *)
Theorem limit_records_stay_in_range (updates : list Update) (x : Z)
    (row : LimitRow) :
  limits (db (run_updates ADMIN_ID updates init_bot)) !! x = Some row →
  0 ≤ used_count row ∧ used_count row ≤ 5
  ∧ (premium row = 0 ∨ premium row = 1).
Proof.
  assert (∀ st, (∀ x row, limits (db st) !! x = Some row → in_range row) →
                ∀ x row, limits (db (run_updates ADMIN_ID updates st)) !! x
                         = Some row → in_range row) as Hrun.
  { induction updates as [|u updates IH]; intros st Hbound; [done|].
    simpl. apply IH. by apply step_limits_in_range. }
  apply Hrun. intros y k Hk. simpl in Hk. by rewrite lookup_empty in Hk.
Qed.

End Bounds.

(** ** Sessions: partners, leaving, blocking, pairing *)

Section Partners.

Import database.

Variable ADMIN_ID : Z.

(** When no user appears twice in [chats], deleting the row of [u] and
    [p] frees both of them and keeps every other row. *)
Lemma remove_chat_by_users_frees (u p : Z) (d : Database) :
  NoDup (participants (chats d)) →
  get_partner u d = Some p →
  (u ∉ participants (chats (remove_chat_by_users u p d)))
  ∧ (p ∉ participants (chats (remove_chat_by_users u p d)))
  ∧ ∀ r, r ∈ chats (remove_chat_by_users u p d)
         ↔ r ∈ chats d ∧ r.1 ≠ u ∧ r.2 ≠ u.
Proof.
  intros Hnd Hp. split; [by apply remove_chat_by_users_leaves|].
  pose proof (get_partner_Some _ _ _ Hp) as Hrow. simpl. split.
  - rewrite elem_of_participants. intros (r & Hr & Hpr).
    apply list_elem_of_filter in Hr as [Hkeep Hr]. apply Hkeep.
    destruct Hrow as [Hrow|Hrow].
    + assert (r = (u, p)) as -> by (eapply (pairing_unique p); eauto).
      simpl. auto.
    + assert (r = (p, u)) as -> by (eapply (pairing_unique p); eauto).
      simpl. auto.
  - intros r. rewrite list_elem_of_filter. split.
    + intros [Hkeep Hr]. split; [done|]. split; intros Hu; apply Hkeep.
      * destruct Hrow as [Hrow|Hrow].
        -- assert (r = (u, p)) as -> by (eapply (pairing_unique u); eauto).
           simpl. auto.
        -- assert (r = (p, u)) as -> by (eapply (pairing_unique u); eauto).
           simpl. auto.
      * destruct Hrow as [Hrow|Hrow].
        -- assert (r = (u, p)) as -> by (eapply (pairing_unique u); eauto).
           simpl. auto.
        -- assert (r = (p, u)) as -> by (eapply (pairing_unique u); eauto).
           simpl. auto.
    + intros (Hr & H1 & H2). split; [|done]. intros [[? ?]|[? ?]]; done.
Qed.

Lemma no_self_pairing (u : Z) (rows : list (Z * Z)) :
  NoDup (participants rows) → (u, u) ∉ rows.
Proof.
  induction rows as [|r rows IH]; intros Hnd Hr;
    [by apply not_elem_of_nil in Hr|].
  rewrite participants_cons in Hnd.
  apply NoDup_cons in Hnd as [H1 Hnd]. apply NoDup_cons in Hnd as [H2 Hnd].
  apply elem_of_cons in Hr as [<-|Hr]; [|by apply IH].
  simpl in H1. set_solver.
Qed.

(** Partners under the invariant: mutual, distinct and nonzero. *)
Lemma partners_under_invariant (u p : Z) (d : Database) :
  matching_inv d →
  get_partner u d = Some p →
  get_partner p d = Some u ∧ p ≠ u ∧ p ≠ 0.
Proof.
  intros Hinv Hp.
  pose proof (inv_one_pairing _ Hinv) as Hnd.
  pose proof (get_partner_Some _ _ _ Hp) as Hrow.
  assert (p ∈ participants (chats d)) as Hin.
  { apply elem_of_participants.
    destruct Hrow as [Hrow|Hrow]; eexists; split; eauto. }
  assert (p ≠ u) as Hne.
  { intros ->. apply (no_self_pairing u (chats d) Hnd). by destruct Hrow. }
  split; [|split; [done|]].
  - destruct (get_partner p d) as [q|] eqn:Hq.
    2: { by apply get_partner_None in Hq. }
    f_equal. apply get_partner_Some in Hq.
    destruct Hrow as [Hrow|Hrow]; destruct Hq as [Hq|Hq].
    + assert ((p, q) = (u, p)) as [= ? ?]
        by (eapply (pairing_unique p); eauto). congruence.
    + assert ((q, p) = (u, p)) as [= ?]
        by (eapply (pairing_unique p); eauto). done.
    + assert ((p, q) = (p, u)) as [= ?]
        by (eapply (pairing_unique p); eauto). done.
    + assert ((q, p) = (p, u)) as [= ? ?]
        by (eapply (pairing_unique p); eauto). congruence.
  - intros ->. by apply (inv_pairs_nonzero _ Hinv).
Qed.

(** Being partners is mutual: in every reachable state, [p] is the
    partner of [u] exactly when [u] is the partner of [p]; a partner is
    never the user itself and never the id 0. *)
Theorem get_partner_is_mutual (u p : Z) (st : Bot) :
  reachable ADMIN_ID st →
  get_partner u (db st) = Some p →
  get_partner p (db st) = Some u ∧ p ≠ u ∧ p ≠ 0.
Proof.
  intros [Hinv _]%reachable_inv. by apply partners_under_invariant.
Qed.

(** [/stop] of a user who has a partner: the partner is told, their row
    is deleted and both are free; the other chats and the queue are not
    touched. *)
Theorem stop_ends_the_chat (message : tg.Message) (p : Z) (st : Bot) :
  let uid := tg.id (tg.from_user message) in
  let st' := state_after (cmd_stop message) st in
  reachable ADMIN_ID st →
  get_partner uid (db st) = Some p →
  calls_of (cmd_stop message) st
  = [Db (Get_partner uid); Db (Remove_chat_by_users uid p);
     Send_message p msg.partner_stopped; Answer msg.you_stopped]
  ∧ get_partner uid (db st') = None
  ∧ get_partner p (db st') = None
  ∧ (∀ r, r ∈ chats (db st') ↔ r ∈ chats (db st) ∧ r.1 ≠ uid ∧ r.2 ≠ uid)
  ∧ queue (db st') = queue (db st).
Proof.
  intros uid st' Hreach Hp. subst st'.
  apply reachable_inv in Hreach as [Hinv _].
  destruct (partners_under_invariant uid p (db st) Hinv Hp) as (_ & _ & Hp0).
  destruct (remove_chat_by_users_frees uid p (db st) (inv_one_pairing _ Hinv)
              Hp) as (Hu & Hfree & Hrows).
  unfold cmd_stop. unfold_steps. cbn. fold uid. rewrite Hp. cbn.
  rewrite truthy_nonzero by done. cbn.
  split; [done|]. split; [by apply get_partner_None|].
  split; [by apply get_partner_None|]. split; [exact Hrows|done].
Qed.

(** [/stop] of a user who has no partner takes the user out of the queue
    and changes nothing else. *)
Theorem stop_leaves_the_queue (message : tg.Message) (st : Bot) :
  let uid := tg.id (tg.from_user message) in
  let st' := state_after (cmd_stop message) st in
  get_partner uid (db st) = None →
  (uid ∉ queue (db st'))
  ∧ (∀ x, x ≠ uid → x ∈ queue (db st') ↔ x ∈ queue (db st))
  ∧ chats (db st') = chats (db st)
  ∧ calls_of (cmd_stop message) st
    = [Db (Get_partner uid); Db (Remove_from_queue uid);
       Answer msg.not_in_chat_stop].
Proof.
  intros uid st' Hp. subst st'.
  unfold cmd_stop. unfold_steps. cbn. fold uid. rewrite Hp. cbn.
  split; [|split; [|done]].
  - rewrite list_elem_of_filter. by intros [? _].
  - intros x Hx. rewrite list_elem_of_filter. naive_solver.
Qed.

End Partners.

Section Matching.

Import database.

Variable ADMIN_ID : Z.

(** A new row for two users who are in no chat makes them partners of
    each other. *)
Lemma get_partner_new_row (u c : Z) (d : Database) :
  u ∉ participants (chats d) → c ∉ participants (chats d) →
  get_partner u (with_chats d (chats d ++ [(u, c)])) = Some c
  ∧ get_partner c (with_chats d (chats d ++ [(u, c)])) = Some u.
Proof.
  intros Hu Hc.
  assert (∀ x, x ∉ participants (chats d) →
               filter (λ r, r.1 = x) (chats d) = []
               ∧ filter (λ r, r.2 = x) (chats d) = []) as Hnone.
  { intros x Hx. split.
    - destruct (filter _ (chats d)) as [|r rest] eqn:Hf; [done|]. exfalso.
      assert (r ∈ filter (λ r, r.1 = x) (chats d)) as Hr
        by (rewrite Hf; apply list_elem_of_here).
      apply list_elem_of_filter in Hr as [? ?].
      apply Hx, elem_of_participants. eauto.
    - destruct (filter _ (chats d)) as [|r rest] eqn:Hf; [done|]. exfalso.
      assert (r ∈ filter (λ r, r.2 = x) (chats d)) as Hr
        by (rewrite Hf; apply list_elem_of_here).
      apply list_elem_of_filter in Hr as [? ?].
      apply Hx, elem_of_participants. eauto. }
  destruct (Hnone u Hu) as [Hu1 Hu2]. destruct (Hnone c Hc) as [Hc1 Hc2].
  unfold get_partner. simpl. rewrite !filter_app, Hu1, Hc1, Hc2. simpl.
  rewrite !filter_cons, !filter_nil. simpl.
  split.
  - by destruct (decide (u = u)).
  - destruct (decide (u = c)) as [->|]; [done|]. by destruct (decide (c = c)).
Qed.

(** The search for a partner when another user waits in the queue. *)
Lemma find_partner_pairs (uid c : Z) (st : Bot) :
  let st' := state_after (find_partner uid) st in
  bot_inv st → uid ≠ 0 → c ∈ queue (db st) → c ≠ uid →
  get_partner uid (db st') = Some c
  ∧ get_partner c (db st') = Some uid
  ∧ queue (db st') = []
  ∧ (∀ p, get_partner uid (db st) = Some p → get_partner p (db st') = None)
  ∧ ∃ log, calls_of (find_partner uid) st
           = Db (Get_partner uid) :: log
             ++ [Db (Get_first_in_queue (Some uid)); Db (Remove_from_queue c);
                 Db (Add_chat uid c); Send_message c msg.partner_found;
                 Answer msg.partner_found]
           ∧ ∀ p, get_partner uid (db st) = Some p →
                  Send_message p msg.partner_left ∈ log.
Proof.
  intros st' [Hinv Hidle] Hu Hc Hne. subst st'.
  pose proof (queue_singleton c (db st) Hinv Hc) as Hq.
  assert (c ≠ 0) as Hc0.
  { intros ->. by apply (inv_queue_nonzero _ Hinv). }
  assert (c ∉ participants (chats (db st))) as Hcfree.
  { intros Hin. by apply (inv_paired_not_queued _ Hinv c Hin). }
  assert (∀ d, queue d = [c] →
               as_truthy (get_first_in_queue (Some uid) d) = Some c) as Hfirst.
  { intros d Hd. apply as_truthy_Some. split; [|done].
    apply get_first_in_queue_least; [done|]. rewrite Hd.
    split; [apply list_elem_of_here|]. split; [done|].
    intros x [->|Hx]%elem_of_cons _; [lia|]. by apply not_elem_of_nil in Hx. }
  assert (∀ d, queue d = [c] → remove_from_queue c d = with_queue d [])
    as Hremove.
  { intros d Hd. unfold remove_from_queue. rewrite Hd, filter_cons.
    by destruct (decide (c ≠ c)). }
  assert (∀ d, uid ∉ participants (chats d) →
               add_chat uid c (with_queue d [])
               = Some (with_chats (with_queue d []) (chats d ++ [(uid, c)])))
    as Hadd.
  { intros d Hfree. unfold add_chat. case_decide as Hin; [|done].
    exfalso. apply Hfree, elem_of_participants. eexists. split; [exact Hin|].
    by left. }
  unfold find_partner. unfold_steps. cbn.
  destruct (as_truthy (get_partner uid (db st))) as [p|] eqn:Hp; cbn.
  - apply partner_truthy in Hp.
    destruct (remove_chat_by_users_frees uid p (db st)
                (inv_one_pairing _ Hinv) Hp) as (Hufree & Hpfree & _).
    rewrite Hfirst by done. cbn. rewrite Hremove by done.
    rewrite Hadd by done. cbn.
    assert (c ∉ participants (chats (remove_chat_by_users uid p (db st))))
      as Hcfree'.
    { intros Hin. apply Hcfree. eapply elem_of_sublist; [exact Hin|].
      apply participants_filter. }
    destruct (get_partner_new_row uid c
                (with_queue (remove_chat_by_users uid p (db st)) []))
      as [H1 H2]; [done|done|].
    split; [exact H1|]. split; [exact H2|]. split; [done|]. split.
    + intros p' Hp'. assert (p' = p) as -> by congruence.
      apply get_partner_None. simpl. rewrite participants_snoc.
      rewrite elem_of_app. intros [?|Hin]; [done|].
      destruct (partners_under_invariant uid p (db st) Hinv Hp)
        as (Hpartner & Hpu & _).
      apply elem_of_cons in Hin as [->|Hin]; [done|].
      apply elem_of_cons in Hin as [->|Hin];
        [|by apply not_elem_of_nil in Hin].
      apply Hcfree. apply elem_of_participants.
      apply get_partner_Some in Hp. destruct Hp as [Hp|Hp]; eexists; eauto.
    + eexists [_; _; _]. split; [reflexivity|].
      intros p' Hp'. assert (p' = p) as -> by congruence.
      rewrite !elem_of_cons. auto.
  - pose proof (partner_falsy _ _ Hinv Hp) as Hufree.
    rewrite Hfirst by done. cbn. rewrite Hremove by done.
    rewrite Hadd by done. cbn.
    destruct (get_partner_new_row uid c (with_queue (db st) []))
      as [H1 H2]; [done|done|].
    split; [exact H1|]. split; [exact H2|]. split; [done|]. split.
    + intros p' Hp'. apply get_partner_None in Hufree. congruence.
    + exists []. split; [reflexivity|].
      intros p' Hp'. apply get_partner_None in Hufree. congruence.
Qed.

(** The search for a partner when nobody else waits. *)
Lemma find_partner_waits (uid : Z) (st : Bot) :
  let st' := state_after (find_partner uid) st in
  bot_inv st → uid ≠ 0 → (∀ x, x ∈ queue (db st) → x = uid) →
  queue (db st') = [uid]
  ∧ get_partner uid (db st') = None
  ∧ (∀ p, get_partner uid (db st) = Some p → get_partner p (db st') = None)
  ∧ ∃ log, calls_of (find_partner uid) st
           = Db (Get_partner uid) :: log
             ++ [Db (Get_first_in_queue (Some uid)); Db (Add_to_queue uid);
                 Answer msg.queued].
Proof.
  intros st' [Hinv Hidle] Hu Hall. subst st'.
  assert (∀ d, queue d = queue (db st) →
               as_truthy (get_first_in_queue (Some uid) d) = None) as Hfirst.
  { intros d Hd. apply as_truthy_None. left.
    destruct (get_first_in_queue (Some uid) d) as [c|] eqn:Hc; [|done].
    apply get_first_in_queue_least in Hc as (Hin & Hne & _); [|done].
    rewrite Hd in Hin. by apply Hall in Hin. }
  unfold find_partner. unfold_steps. cbn.
  destruct (as_truthy (get_partner uid (db st))) as [p|] eqn:Hp; cbn.
  - apply partner_truthy in Hp.
    destruct (remove_chat_by_users_frees uid p (db st)
                (inv_one_pairing _ Hinv) Hp) as (Hufree & Hpfree & _).
    rewrite Hfirst by done. cbn.
    destruct (matching_inv_enqueue uid (remove_chat_by_users uid p (db st)))
      as (_ & Hq & Hch & _);
      [by apply matching_inv_remove_chat_by_users|done|done|by apply Hfirst|].
    split; [exact Hq|]. split; [apply get_partner_None; by rewrite Hch|].
    split; [|by eexists [_; _; _]].
    intros p' Hp'. assert (p' = p) as -> by congruence.
    apply get_partner_None. by rewrite Hch.
  - pose proof (partner_falsy _ _ Hinv Hp) as Hufree.
    rewrite Hfirst by done. cbn.
    destruct (matching_inv_enqueue uid (db st)) as (_ & Hq & Hch & _);
      [done|done|done|by apply Hfirst|].
    split; [exact Hq|]. split; [apply get_partner_None; by rewrite Hch|].
    split; [|by exists []].
    intros p' Hp'. apply get_partner_None in Hufree. congruence.
Qed.

(** An allowed match request is the search for a partner, run on the
    state in which the user row and the limit record have been written. *)
Lemma cmd_next_allowed (message : tg.Message) (clock : Q) (now : Z)
    (member : bool) (st : Bot) :
  let uid := tg.id (tg.from_user message) in
  let pg := past_gates message clock st in
  (is_rate_limited uid "next" 5 clock st).1.1 = Some false →
  is_blocked uid (db st) = false →
  (spec_evaluate (get_limit_info uid (db st)) now member).1 = true →
  ∃ used reset flag pre,
    cmd_next message clock now member st
    = (let '(r, st3, log) :=
         find_partner uid
           (with_db pg (update_limit uid used reset flag (db pg))) in
       (r, st3, pre ++ log)).
Proof.
  intros uid pg Hrate Hblocked Hallow.
  destruct (cmd_next_evaluates message clock now member st Hrate Hblocked)
    as [_ Hverdict].
  fold uid in Hverdict. rewrite Hallow in Hverdict.
  destruct Hverdict as [Hsearch Hnot]. unfold calls_of in Hsearch, Hnot.
  destruct (cmd_next_cases message clock now member st)
    as [[_ Hrun]|[_ [[Hb _]|[[_ (a & b & c & log & Hrun & Hlog)]|[_ Hrun]]]]].
  - rewrite Hrun in Hsearch. simpl in Hsearch.
    apply elem_of_cons in Hsearch as [?|Hsearch]; [done|].
    by apply not_elem_of_nil in Hsearch.
  - fold uid in Hb. congruence.
  - rewrite Hrun in Hnot. done.
  - exact Hrun.
Qed.

(** A match request that is let through while another user waits: the
    two become partners of each other, the queue is empty, both are told
    that a partner was found; a partner the requester had before is told
    that the requester left and is free again. *)
Theorem next_pairs_with_the_waiting_user (message : tg.Message)
    (clock : Q) (now : Z) (member : bool) (c : Z) (st : Bot) :
  let uid := tg.id (tg.from_user message) in
  let st' := state_after (cmd_next message clock now member) st in
  let calls := calls_of (cmd_next message clock now member) st in
  reachable ADMIN_ID st → uid ≠ 0 →
  (is_rate_limited uid "next" 5 clock st).1.1 = Some false →
  is_blocked uid (db st) = false →
  (spec_evaluate (get_limit_info uid (db st)) now member).1 = true →
  c ∈ queue (db st) → c ≠ uid →
  get_partner uid (db st') = Some c
  ∧ get_partner c (db st') = Some uid
  ∧ queue (db st') = []
  ∧ Send_message c msg.partner_found ∈ calls
  ∧ Answer msg.partner_found ∈ calls
  ∧ ∀ p, get_partner uid (db st) = Some p →
         get_partner p (db st') = None
         ∧ Send_message p msg.partner_left ∈ calls.
Proof.
  intros uid st' calls Hinv%reachable_inv Hu Hrate Hblocked Hallow Hc Hne.
  subst st' calls. unfold state_after, calls_of.
  destruct (cmd_next_allowed message clock now member st Hrate Hblocked Hallow)
    as (a & b & f & pre & Hrun).
  rewrite Hrun. fold uid.
  set (st2 := with_db (past_gates message clock st) _).
  destruct (find_partner_pairs uid c st2) as (H1 & H2 & H3 & H4 & log & H5 & H6);
    [revert Hinv; by apply bot_inv_same_tables|done|done|done|].
  unfold state_after, calls_of in *.
  destruct (find_partner uid st2) as [[r st3] calls]. cbn in *. subst calls.
  split; [done|]. split; [done|]. split; [done|].
  split; [rewrite !elem_of_app, !elem_of_cons, !elem_of_app, !elem_of_cons;
          by auto 20|].
  split; [rewrite !elem_of_app, !elem_of_cons, !elem_of_app, !elem_of_cons;
          by auto 20|].
  intros p Hp. split; [by apply H4|].
  rewrite !elem_of_app, !elem_of_cons, !elem_of_app. specialize (H6 p Hp).
  auto 10.
Qed.

(** A match request that is let through while nobody else waits: the
    requester is the only one in the queue afterwards and has no partner;
    a partner the requester had before is free again. *)
Theorem next_waits_in_the_queue (message : tg.Message) (clock : Q) (now : Z)
    (member : bool) (st : Bot) :
  let uid := tg.id (tg.from_user message) in
  let st' := state_after (cmd_next message clock now member) st in
  let calls := calls_of (cmd_next message clock now member) st in
  reachable ADMIN_ID st → uid ≠ 0 →
  (is_rate_limited uid "next" 5 clock st).1.1 = Some false →
  is_blocked uid (db st) = false →
  (spec_evaluate (get_limit_info uid (db st)) now member).1 = true →
  (∀ x, x ∈ queue (db st) → x = uid) →
  queue (db st') = [uid]
  ∧ get_partner uid (db st') = None
  ∧ Answer msg.queued ∈ calls
  ∧ ∀ p, get_partner uid (db st) = Some p → get_partner p (db st') = None.
Proof.
  intros uid st' calls Hinv%reachable_inv Hu Hrate Hblocked Hallow Hall.
  subst st' calls. unfold state_after, calls_of.
  destruct (cmd_next_allowed message clock now member st Hrate Hblocked Hallow)
    as (a & b & f & pre & Hrun).
  rewrite Hrun. fold uid.
  set (st2 := with_db (past_gates message clock st) _).
  destruct (find_partner_waits uid st2) as (H1 & H2 & H3 & log & H4);
    [revert Hinv; by apply bot_inv_same_tables|done|done|].
  unfold state_after, calls_of in *.
  destruct (find_partner uid st2) as [[r st3] calls]. cbn in *. subst calls.
  split; [done|]. split; [done|]. split; [|done].
  rewrite !elem_of_app, !elem_of_cons, !elem_of_app, !elem_of_cons. auto 20.
Qed.

End Matching.

(** ** Moderation and relaying *)

Section Blocking.

Import database.

Variable ADMIN_ID : Z.

(** [/block <user_id>] sent by the moderator, for an id that SQLite can
    store: the user is blocked, is told so, is in no chat and not in the
    queue; the partner the user had is told and is free; nobody else's
    block state or queue entry changes.  For an id outside the signed
    64-bit range the first statement raises [OverflowError]: nothing is
    stored and nothing is sent. *)
Theorem block_cascades (message : tg.Message) (user_id : Z) (st : Bot) :
  let st' := state_after (cmd_block ADMIN_ID message (User_id user_id)) st in
  let calls := calls_of (cmd_block ADMIN_ID message (User_id user_id)) st in
  reachable ADMIN_ID st →
  tg.id (tg.from_user message) = ADMIN_ID →
  (fits_sqlite_integer user_id = true →
   is_blocked user_id (db st') = true
   ∧ get_partner user_id (db st') = None
   ∧ (user_id ∉ queue (db st'))
   ∧ Send_message user_id msg.you_are_blocked ∈ calls
   ∧ (∀ p, get_partner user_id (db st) = Some p →
           get_partner p (db st') = None
           ∧ Send_message p msg.partner_blocked ∈ calls)
   ∧ (∀ x, x ≠ user_id →
           is_blocked x (db st') = is_blocked x (db st)
           ∧ (x ∈ queue (db st') ↔ x ∈ queue (db st))))
  ∧ (fits_sqlite_integer user_id = false →
     cmd_block ADMIN_ID message (User_id user_id) st
     = (None, st, [Db (Block_user user_id); Raise "OverflowError"])).
Proof.
  intros st' calls [Hinv _]%reachable_inv Hadmin. subst st' calls.
  unfold cmd_block. unfold_steps.
  rewrite bool_decide_eq_false_2 by (intros Hne; by apply Hne). cbn.
  unfold block_user.
  split; intros Hfits; rewrite Hfits; cbn; [|done].
  change (get_partner user_id (with_blocks (db st) _))
    with (get_partner user_id (db st)).
  assert (∀ d, user_id ∉ queue (remove_from_queue user_id d)) as Hgone.
  { intros d. simpl. rewrite list_elem_of_filter. by intros [? _]. }
  assert (∀ d x, x ≠ user_id →
                 x ∈ queue (remove_from_queue user_id d) ↔ x ∈ queue d)
    as Hothers.
  { intros d x Hx. simpl. rewrite list_elem_of_filter. naive_solver. }
  assert (∀ x, x ≠ user_id →
               bool_decide (x ∈ {[user_id]} ∪ blocks (db st))
               = bool_decide (x ∈ blocks (db st))) as Hblocks.
  { intros x Hx. apply bool_decide_ext. set_solver. }
  destruct (as_truthy (get_partner user_id (db st))) as [p|] eqn:Hp; cbn.
  - apply partner_truthy in Hp.
    destruct (remove_chat_by_users_frees user_id p (db st)
                (inv_one_pairing _ Hinv) Hp) as (Hufree & Hpfree & _).
    split; [apply bool_decide_eq_true_2; set_solver|].
    split; [by apply get_partner_None|]. split; [apply Hgone|].
    split; [rewrite !elem_of_cons; by auto 10|]. split.
    + intros p' Hp'. assert (p' = p) as -> by congruence.
      split; [by apply get_partner_None|]. rewrite !elem_of_cons. auto 10.
    + intros x Hx. split; [by apply Hblocks|]. by apply Hothers.
  - pose proof (partner_falsy _ _ Hinv Hp) as Hufree.
    split; [apply bool_decide_eq_true_2; set_solver|].
    split; [by apply get_partner_None|]. split; [apply Hgone|].
    split; [rewrite !elem_of_cons; by auto 10|]. split.
    + intros p' Hp'. apply get_partner_None in Hufree. congruence.
    + intros x Hx. split; [by apply Hblocks|]. by apply Hothers.
Qed.

(** [/unblock <user_id>] sent by the moderator, for an id that SQLite can
    store: the user is no longer blocked and is told so; queue, chats and
    everybody else's block state are as before (a chat ended by the block
    is not restored).  For an id outside the signed 64-bit range the
    statement raises [OverflowError]: nothing is stored and nothing is
    sent. *)
Theorem unblock_lifts_the_block (message : tg.Message) (user_id : Z)
    (st : Bot) :
  let st' := state_after (cmd_unblock ADMIN_ID message (User_id user_id)) st in
  tg.id (tg.from_user message) = ADMIN_ID →
  (fits_sqlite_integer user_id = true →
   is_blocked user_id (db st') = false
   ∧ (∀ x, x ≠ user_id → is_blocked x (db st') = is_blocked x (db st))
   ∧ queue (db st') = queue (db st) ∧ chats (db st') = chats (db st)
   ∧ calls_of (cmd_unblock ADMIN_ID message (User_id user_id)) st
     = [Db (Unblock_user user_id);
        Send_message user_id msg.you_are_unblocked;
        Answer (msg.user_unblocked user_id)])
  ∧ (fits_sqlite_integer user_id = false →
     cmd_unblock ADMIN_ID message (User_id user_id) st
     = (None, st, [Db (Unblock_user user_id); Raise "OverflowError"])).
Proof.
  intros st' Hadmin. subst st'. unfold cmd_unblock. unfold_steps.
  rewrite bool_decide_eq_false_2 by (intros Hne; by apply Hne). cbn.
  unfold unblock_user.
  split; intros Hfits; rewrite Hfits; cbn; [|done].
  split; [apply bool_decide_eq_false_2; set_solver|].
  split; [|done]. intros x Hx. apply bool_decide_ext. set_solver.
Qed.

(** A text of an unblocked user goes to the partner of the sender and to
    nobody else, and the database is not written; without a partner
    nothing is sent and nothing is remembered.  In a reachable state the
    receiver's partner is the sender. *)
Theorem text_goes_to_the_partner_only (message : tg.Message) (delivered : bool)
    (st : Bot) :
  let uid := tg.id (tg.from_user message) in
  let st' := state_after (handle_text message delivered) st in
  let calls := calls_of (handle_text message delivered) st in
  reachable ADMIN_ID st →
  is_blocked uid (db st) = false →
  db st' = db st
  ∧ match get_partner uid (db st) with
    | Some p =>
        get_partner p (db st) = Some uid
        ∧ calls = [Db (Is_blocked uid); Db (Get_partner uid);
                   Send_message p (tg.text message)]
                  ++ (if delivered then [] else [Answer msg.not_delivered])
    | None =>
        st' = st
        ∧ calls = [Db (Is_blocked uid); Db (Get_partner uid);
                   Answer msg.no_partner]
    end.
Proof.
  intros uid st' calls [Hinv _]%reachable_inv Hblocked. subst st' calls.
  unfold handle_text. unfold_steps. cbn. fold uid. rewrite Hblocked. cbn.
  destruct (get_partner uid (db st)) as [p|] eqn:Hp; cbn; [|done].
  destruct (partners_under_invariant uid p (db st) Hinv Hp)
    as (Hback & _ & Hp0).
  rewrite truthy_nonzero by done. cbn. by destruct delivered.
Qed.

End Blocking.

(** ** The rate limiter *)

Section RateLimit.

Import database.

Variable ADMIN_ID : Z.

Lemma string_app_length (s t : string) :
  String.length (s +:+ t) = (String.length s + String.length t)%nat.
Proof.
  induction s as [|a s IH]; [done|].
  change (String a s +:+ t) with (String a (s +:+ t)). simpl. by rewrite IH.
Qed.

Lemma string_app_inv_tail (s1 s2 t : string) :
  s1 +:+ t = s2 +:+ t → s1 = s2.
Proof.
  revert s2. induction s1 as [|a s1 IH]; intros [|b s2] Heq; [done| | |].
  - apply (f_equal String.length) in Heq.
    rewrite !string_app_length in Heq. simpl in Heq. lia.
  - apply (f_equal String.length) in Heq.
    rewrite !string_app_length in Heq. simpl in Heq. lia.
  - change (String a (s1 +:+ t) = String b (s2 +:+ t)) in Heq.
    injection Heq as -> Heq. f_equal. by apply IH.
Qed.

(** The keys of two users for the same action differ. *)
Lemma rate_key_inj (u v : Z) (action : string) :
  pretty u +:+ ":" +:+ action = pretty v +:+ ":" +:+ action → u = v.
Proof.
  intros Heq. apply string_app_inv_tail in Heq. by apply (inj pretty) in Heq.
Qed.

(** After a match request the rate limiter holds the request's clock
    reading if it let the request through, and what it held before if it
    did not. *)
Lemma cmd_next_stamp (message : tg.Message) (clock : Q) (now : Z)
    (member : bool) (st : Bot) :
  let uid := tg.id (tg.from_user message) in
  last_action_time (state_after (cmd_next message clock now member) st)
  = if (is_rate_limited uid "next" 5 clock st).1.1 is Some false
    then <[pretty uid +:+ ":" +:+ "next" := clock]> (last_action_time st)
    else last_action_time st.
Proof.
  intros uid. unfold state_after.
  destruct (cmd_next_cases message clock now member st)
    as [[Hrate Hrun]|[Hrate [[_ [log Hrun]]
                            |[[_ (a & b & c & log & Hrun & _)]
                             |[_ (a & b & c & pre & Hrun)]]]]];
    fold uid in Hrate; rewrite Hrate, Hrun; try done.
  pose proof (find_partner_frame uid
                (with_db (past_gates message clock st)
                   (update_limit uid a b c
                      (db (past_gates message clock st))))) as Hframe.
  unfold state_after in Hframe. fold uid.
  destruct (find_partner _ _) as [[r st3] log]. cbn in *.
  by destruct Hframe as (_ & -> & _).
Qed.

(** The cooldown of [/next]: once a request of a user was let through at
    clock reading [clock], a request of the same user at the later reading
    [clock'] is refused with the "wait" answer, and changes nothing,
    exactly while less than 5 seconds (fractions included) have passed
    since [clock]; refused requests do not prolong the wait.  The two
    readings are those of a running clock, positive and less than a
    factor of two apart, for which the subtraction of [float]s is
    exact. *)
Theorem next_cooldown (message again : tg.Message) (clock : Q) (now : Z)
    (member : bool) (clock' : Q) (now' : Z) (member' : bool) (st : Bot) :
  let uid := tg.id (tg.from_user message) in
  let st1 := state_after (cmd_next message clock now member) st in
  tg.id (tg.from_user again) = uid →
  (0 < clock)%Q → (clock <= clock')%Q → (clock' <= 2 * clock)%Q →
  (is_rate_limited uid "next" 5 clock st).1.1 = Some false →
  (is_rate_limited uid "next" 5 clock' st1).1.1
  = Some (bool_decide (clock' - clock < 5)%Q)
  ∧ ((clock' - clock < 5)%Q →
     cmd_next again clock' now' member' st1
     = (Some tt, st1, [Answer msg.wait]))
  ∧ (¬ (clock' - clock < 5)%Q →
     last_action_time (state_after (cmd_next again clock' now' member') st1)
     !! (pretty uid +:+ ":" +:+ "next") = Some clock').
Proof.
  intros uid st1 Hsame _ _ _ Hrate.
  assert (last_action_time st1 !! (pretty uid +:+ ":" +:+ "next") = Some clock)
    as Hstamp.
  { subst st1. rewrite cmd_next_stamp. fold uid. rewrite Hrate.
    apply lookup_insert_eq. }
  assert ((is_rate_limited uid "next" 5 clock' st1).1.1
          = Some (bool_decide (clock' - clock < 5)%Q)) as Hlimited.
  { unfold is_rate_limited. rewrite Hstamp.
    change (inject_Z 5) with 5%Q. change (default 0%Q (Some clock)) with clock.
    by case_bool_decide. }
  split; [done|]. split.
  - intros Hsoon.
    destruct (cmd_next_cases again clock' now' member' st1)
      as [[_ Hrun]|[Hpass _]]; [done|].
    rewrite Hsame, Hlimited, bool_decide_eq_true_2 in Hpass by done. done.
  - intros Hlate. rewrite cmd_next_stamp, Hsame, Hlimited.
    rewrite bool_decide_eq_false_2 by done. apply lookup_insert_eq.
Qed.

(** The cooldown is per user: a match request of one user does not change
    whether the rate limiter lets another user through. *)
Theorem rate_limit_is_per_user (message : tg.Message) (clock : Q) (now : Z)
    (member : bool) (other : Z) (clock' : Q) (st : Bot) :
  let st1 := state_after (cmd_next message clock now member) st in
  other ≠ tg.id (tg.from_user message) →
  (is_rate_limited other "next" 5 clock' st1).1.1
  = (is_rate_limited other "next" 5 clock' st).1.1.
Proof.
  intros st1 Hother.
  assert (last_action_time st1 !! (pretty other +:+ ":" +:+ "next")
          = last_action_time st !! (pretty other +:+ ":" +:+ "next")) as Hkey.
  { subst st1. rewrite cmd_next_stamp.
    destruct ((is_rate_limited _ "next" 5 clock st).1.1) as [[|]|]; try done.
    rewrite lookup_insert_ne; [done|].
    intros Hkey. apply Hother. symmetry. by apply rate_key_inj in Hkey. }
  unfold is_rate_limited. rewrite Hkey. by case_bool_decide.
Qed.

End RateLimit.

(** ** Round trips of the tables *)

Section Tables.

Import database.

(** Leaving the queue: the user is gone from it, leaving twice is leaving
    once, and for a user who was not queued, joining and then leaving (or
    leaving alone) gives back the database as it was. *)
Theorem remove_from_queue_undoes_add (user_id : Z) (d : Database) :
  (user_id ∉ queue (remove_from_queue user_id d))
  ∧ remove_from_queue user_id (remove_from_queue user_id d)
    = remove_from_queue user_id d
  ∧ (user_id ∉ queue d →
     remove_from_queue user_id (add_to_queue user_id d) = d
     ∧ remove_from_queue user_id d = d).
Proof.
  assert (∀ q : list Z, user_id ∉ q → filter (λ r, r ≠ user_id) q = q)
    as Hkeep.
  { intros q Hq. apply filter_keeps_all. intros x Hx ->. done. }
  assert (user_id ∉ filter (λ r, r ≠ user_id) (queue d)) as Hgone.
  { rewrite list_elem_of_filter. by intros [? _]. }
  split; [exact Hgone|]. split.
  - unfold remove_from_queue. simpl. by rewrite (Hkeep _ Hgone).
  - intros Hnew. split.
    2: { unfold remove_from_queue. rewrite (Hkeep _ Hnew). by destruct d. }
    unfold add_to_queue. case_decide; [done|].
    unfold remove_from_queue. simpl.
    rewrite filter_app, filter_cons, filter_nil.
    destruct (decide (user_id ≠ user_id)); [done|].
    rewrite app_nil_r, Hkeep by done. by destruct d.
Qed.

(** A chat of two users who are in no chat: [add_chat] stores it, each
    is then the partner of the other, a second [add_chat] of the same pair
    is refused by the primary key, and [remove_chat_by_users], with the
    two users in either order, gives back the database as it was. *)
Theorem add_chat_round_trip (u c : Z) (d : Database) :
  u ∉ participants (chats d) → c ∉ participants (chats d) →
  ∃ d', add_chat u c d = Some d'
        ∧ get_partner u d' = Some c
        ∧ get_partner c d' = Some u
        ∧ add_chat u c d' = None
        ∧ remove_chat_by_users u c d' = d
        ∧ remove_chat_by_users c u d' = d.
Proof.
  intros Hu Hc. exists (with_chats d (chats d ++ [(u, c)])).
  destruct (get_partner_new_row u c d Hu Hc) as [H1 H2].
  assert ((u, c) ∉ chats d) as Hnew.
  { intros Hin. apply Hu, elem_of_participants. eexists. split; [exact Hin|].
    by left. }
  split; [unfold add_chat; by case_decide|].
  split; [done|]. split; [done|]. split.
  { unfold add_chat. case_decide as Hin; [done|]. exfalso. apply Hin. simpl.
    rewrite elem_of_app. right. apply list_elem_of_here. }
  assert (∀ a b, (a = u ∧ b = c) ∨ (a = c ∧ b = u) →
            filter (λ r, ¬ ((r.1 = a ∧ r.2 = b) ∨ (r.1 = b ∧ r.2 = a)))
              (chats d ++ [(u, c)]) = chats d) as Hfilter.
  { intros a b Hab. rewrite filter_app, filter_cons, filter_nil.
    destruct (decide (¬ (((u, c).1 = a ∧ (u, c).2 = b)
                         ∨ ((u, c).1 = b ∧ (u, c).2 = a)))) as [Hno|_].
    { exfalso. apply Hno. simpl. naive_solver. }
    rewrite app_nil_r. apply filter_keeps_all.
    intros r Hr Hmatch. apply Hu, elem_of_participants. exists r.
    split; [done|]. naive_solver. }
  split; unfold remove_chat_by_users; simpl; rewrite Hfilter by auto;
    by destruct d.
Qed.

(** [add_user] is an upsert: the row of the user is the one just given,
    the rows of the others are as before, and the user count of
    [get_stats] grows by one exactly when the id was unknown; the other
    counts do not move. *)
Theorem add_user_upserts (user_id : Z) (username first_name last_name : option string)
    (d : Database) :
  let d' := add_user user_id username first_name last_name d in
  users d' !! user_id
  = Some {| database.username := username; database.first_name := first_name;
            database.last_name := last_name |}
  ∧ (∀ other, other ≠ user_id → users d' !! other = users d !! other)
  ∧ stats_users (get_stats d')
    = (if users d !! user_id is Some _ then stats_users (get_stats d)
       else S (stats_users (get_stats d)))
  ∧ stats_reports (get_stats d') = stats_reports (get_stats d)
  ∧ stats_active_chats (get_stats d') = stats_active_chats (get_stats d)
  ∧ stats_queue (get_stats d') = stats_queue (get_stats d).
Proof.
  intros d'. subst d'. simpl.
  split; [apply lookup_insert_eq|].
  split; [intros other Hne; by apply lookup_insert_ne|].
  split; [|done]. rewrite map_size_insert. by destruct (users d !! user_id).
Qed.

End Tables.

(** ** Counting the searches *)

Section Counting.

Import database.

(** A match request of a user without premium, inside the current window
    and under the limit, is let through and counted: the stored count
    grows by exactly one and reset time and flag stay, whatever the
    subscription check would say. *)
Theorem search_under_the_limit_is_counted (message : tg.Message)
    (clock : Q) (now : Z) (member : bool) (st : Bot) :
  let uid := tg.id (tg.from_user message) in
  let info := get_limit_info uid (db st) in
  let st' := state_after (cmd_next message clock now member) st in
  (is_rate_limited uid "next" 5 clock st).1.1 = Some false →
  is_blocked uid (db st) = false →
  premium info = 0 → now ≤ reset_time info → used_count info < LIMIT →
  get_limit_info uid (db st')
  = {| used_count := used_count info + 1; reset_time := reset_time info;
       premium := 0 |}
  ∧ Db (Get_partner uid) ∈ calls_of (cmd_next message clock now member) st
  ∧ (Answer msg.limit_reached
     ∉ calls_of (cmd_next message clock now member) st).
Proof.
  intros uid info st' Hrate Hblocked Hprem Hnow Hused. subst st'.
  destruct (cmd_next_evaluates message clock now member st Hrate Hblocked)
    as [Hlim Hverdict].
  fold uid info in Hlim, Hverdict. unfold spec_evaluate in Hlim, Hverdict.
  unfold LIMIT in Hused.
  rewrite (bool_decide_eq_false_2 (premium info ≠ 0)) in Hlim, Hverdict
    by (rewrite Hprem; lia).
  rewrite (bool_decide_eq_false_2 (now > reset_time info)) in Hlim, Hverdict
    by lia.
  rewrite (bool_decide_eq_false_2 (used_count info >= 5)) in Hlim, Hverdict
    by lia.
  simpl in Hlim, Hverdict. split; [|done].
  rewrite (get_limit_info_insert _ _ _ _ Hlim). by rewrite Hprem.
Qed.

End Counting.

(** ** The further properties on concrete runs *)

Lemma only_the_moderator_changes_blocks_witness :
  database.blocks
    (db (run_updates moderator
           [Block (message_from 5 1) (User_id 9);
            Unblock (message_from 5 2) (User_id 7)] blocked_state))
  = database.blocks (db blocked_state).
Proof.
  apply only_the_moderator_changes_blocks.
  repeat constructor; by vm_compute.
Defined.

Lemma database_raises_only_on_overflow_witness :
  (handle moderator (Block (message_from moderator 9) (User_id (2 ^ 63)))
     paired_state).1.1 = None
  ∧ state_after
      (handle moderator (Block (message_from moderator 9) (User_id (2 ^ 63))))
      paired_state = paired_state.
Proof.
  destruct (database_raises_only_on_overflow moderator
              (Block (message_from moderator 9) (User_id (2 ^ 63)))
              paired_state) as [_ Hraise];
    [apply paired_state_reachable|by vm_compute
    |by repeat constructor|].
  destruct (Hraise (2 ^ 63)) as (Hnone & Hstate & _); by vm_compute.
Defined.

Lemma windows_hold_one_to_five_witness :
  (1 ≤ length ([(1, 3); (1, 4); (1, 5); (1, 6); (1, 7)]%Z
                 : list (Z * Z)))%nat
  ∧ (length ([(1, 3); (1, 4); (1, 5); (1, 6); (1, 7)]%Z
               : list (Z * Z)) ≤ 5)%nat.
Proof.
  apply (windows_hold_one_to_five moderator
           ([Next (message_from 1 1) 100 100 false;
             Next (message_from 2 1) 100 100 false]
            ++ ((λ s, Text s.1 s.2) <$> seven_texts)) 1).
  by vm_compute.
Defined.

Lemma limit_records_stay_in_range_witness :
  0 ≤ 1 ∧ 1 ≤ 5 ∧ (0 = 0 ∨ 0 = 1).
Proof.
  apply (limit_records_stay_in_range moderator
           [Next (message_from 1 1) 100 100 false] 1
           {| database.used_count := 1; database.reset_time := 3700;
              database.premium := 0 |}).
  by vm_compute.
Defined.

Lemma get_partner_is_mutual_witness :
  database.get_partner 1 (db paired_state) = Some 2 ∧ 1 ≠ 2 ∧ 1 ≠ 0.
Proof.
  apply (get_partner_is_mutual moderator 2 1 paired_state);
    [apply paired_state_reachable|by vm_compute].
Defined.

Lemma stop_ends_the_chat_witness :
  database.get_partner 2
    (db (state_after (cmd_stop (message_from 2 5)) paired_state)) = None
  ∧ database.get_partner 1
      (db (state_after (cmd_stop (message_from 2 5)) paired_state)) = None.
Proof.
  destruct (stop_ends_the_chat moderator (message_from 2 5) 1 paired_state)
    as (_ & H1 & H2 & _);
    [apply paired_state_reachable|by vm_compute|].
  split; [exact H1|exact H2].
Defined.

Lemma stop_leaves_the_queue_witness :
  3 ∉ database.queue
        (db (state_after (cmd_stop (message_from 3 5)) waiting_state)).
Proof.
  refine (proj1 (stop_leaves_the_queue (message_from 3 5) waiting_state _)).
  by vm_compute.
Defined.

Lemma next_pairs_with_the_waiting_user_witness :
  database.get_partner 4
    (db (state_after (cmd_next (message_from 4 1) 100 100 false)
           waiting_state)) = Some 3
  ∧ database.get_partner 3
      (db (state_after (cmd_next (message_from 4 1) 100 100 false)
             waiting_state)) = Some 4.
Proof.
  destruct (next_pairs_with_the_waiting_user moderator (message_from 4 1)
              100 100 false 3 waiting_state) as (H1 & H2 & _).
  - apply waiting_state_reachable.
  - by vm_compute.
  - by vm_compute.
  - by vm_compute.
  - by vm_compute.
  - vm_compute. apply list_elem_of_here.
  - by vm_compute.
  - split; [exact H1|exact H2].
Defined.

Lemma next_waits_in_the_queue_witness :
  database.queue
    (db (state_after (cmd_next (message_from 3 1) 100 100 false) paired_state))
  = [3].
Proof.
  refine (proj1 (next_waits_in_the_queue moderator (message_from 3 1)
                   100 100 false paired_state _ _ _ _ _ _)).
  - apply paired_state_reachable.
  - by vm_compute.
  - by vm_compute.
  - by vm_compute.
  - by vm_compute.
  - intros x Hx. vm_compute in Hx. by apply not_elem_of_nil in Hx.
Defined.

Lemma block_cascades_witness :
  database.is_blocked 1
    (db (state_after (cmd_block moderator (message_from moderator 9)
                        (User_id 1)) paired_state)) = true
  ∧ database.get_partner 2
      (db (state_after (cmd_block moderator (message_from moderator 9)
                          (User_id 1)) paired_state)) = None.
Proof.
  destruct (block_cascades moderator (message_from moderator 9) 1 paired_state)
    as [Hstored _]; [apply paired_state_reachable|by vm_compute|].
  destruct Hstored as (H1 & _ & _ & _ & H2 & _); [by vm_compute|].
  split; [exact H1|]. apply (H2 2). by vm_compute.
Defined.

Lemma unblock_lifts_the_block_witness :
  database.is_blocked 7
    (db (state_after (cmd_unblock moderator (message_from moderator 9)
                        (User_id 7)) blocked_state)) = false.
Proof.
  refine (proj1 (proj1 (unblock_lifts_the_block moderator
                          (message_from moderator 9) 7 blocked_state _) _));
    by vm_compute.
Defined.

Lemma text_goes_to_the_partner_only_witness :
  db (state_after (handle_text (message_from 1 5) true) paired_state)
  = db paired_state.
Proof.
  refine (proj1 (text_goes_to_the_partner_only moderator (message_from 1 5) true
                   paired_state _ _));
    [apply paired_state_reachable|by vm_compute].
Defined.

Lemma next_cooldown_witness :
  cmd_next (message_from 1 2) 105.25 105 false
    (state_after (cmd_next (message_from 1 1) 100.5 100 false) init_bot)
  = (Some tt,
     state_after (cmd_next (message_from 1 1) 100.5 100 false) init_bot,
     [Answer msg.wait]).
Proof.
  refine (proj1 (proj2 (next_cooldown (message_from 1 1) (message_from 1 2)
                          100.5 100 false 105.25 105 false init_bot
                          _ _ _ _ _)) _).
  - done.
  - reflexivity.
  - by vm_compute.
  - by vm_compute.
  - by vm_compute.
  - reflexivity.
Defined.

Lemma rate_limit_is_per_user_witness :
  (is_rate_limited 2 "next" 5 101
     (state_after (cmd_next (message_from 1 1) 100 100 false) init_bot)).1.1
  = (is_rate_limited 2 "next" 5 101 init_bot).1.1.
Proof.
  apply (rate_limit_is_per_user (message_from 1 1) 100 100 false 2 101 init_bot).
  by vm_compute.
Defined.

Lemma remove_from_queue_undoes_add_witness :
  database.remove_from_queue 2 (database.add_to_queue 2 (enqueue_all [3; 1]))
  = enqueue_all [3; 1].
Proof.
  refine (proj1 (proj2 (proj2 (remove_from_queue_undoes_add 2
                                 (enqueue_all [3; 1]))) _)).
  vm_compute. intros Hin.
  repeat (apply elem_of_cons in Hin as [Hin|Hin]; [discriminate|]).
  by apply not_elem_of_nil in Hin.
Defined.

Lemma add_chat_round_trip_witness :
  ∃ d', database.add_chat 1 2 database.init_db = Some d'
        ∧ database.get_partner 1 d' = Some 2
        ∧ database.get_partner 2 d' = Some 1
        ∧ database.add_chat 1 2 d' = None
        ∧ database.remove_chat_by_users 1 2 d' = database.init_db
        ∧ database.remove_chat_by_users 2 1 d' = database.init_db.
Proof.
  apply add_chat_round_trip; simpl; apply not_elem_of_nil.
Defined.

Lemma search_under_the_limit_is_counted_witness :
  database.get_limit_info 7
    (db (state_after (cmd_next (message_from 7 1) 100 900 false)
           (limited_state 3 1000 0)))
  = {| database.used_count := 4; database.reset_time := 1000;
       database.premium := 0 |}.
Proof.
  refine (proj1 (search_under_the_limit_is_counted (message_from 7 1) 100 900
                   false (limited_state 3 1000 0) _ _ _ _ _)).
  - by vm_compute.
  - by vm_compute.
  - by vm_compute.
  - by vm_compute.
  - by vm_compute.
Defined.
